(** * Core Web Vitals analyser: the engine of [src/app.js]

    A shallow embedding of the metric extraction, rating, formatting,
    history and export logic of [src/app.js], and the properties its
    specification states about them. *)

From Stdlib Require Import ZArith QArith Qround Qabs Lia Lqa Bool.
From Stdlib Require Import PrimFloat FloatOps SpecFloat.
From Stdlib Require Import Ascii String List.
From stdpp Require Import base option strings gmap.
Import ListNotations.

Local Open Scope string_scope.
Local Open Scope Z_scope.

(** ** JavaScript numbers

    A [number] is an IEEE-754 binary64 value as JavaScript has it: [NaN],
    the two infinities, or a finite value, written here as the rational it
    denotes (the two zeros are one: nothing in this program tells them
    apart).  Comparisons, [Math.round] and [toFixed] are exact on the
    denoted value; division and multiplication round their exact result
    to the nearest binary64 value, ties to even. *)

Module Number.

Inductive number : Type :=
  | NaN
  | Inf (negative : bool)
  | Fin (q : Q).

Definition pow2 (e : Z) : Q :=
  if 0 <=? e then inject_Z (2 ^ e) else / inject_Z (2 ^ (- e)).

(** The integer nearest [x], a tie going to the even one. *)
Definition round_half_even (x : Q) : Z :=
  let f := Qfloor x in
  match ((x - inject_Z f) ?= (1 # 2))%Q with
  | Lt => f
  | Gt => f + 1
  | Eq => if Z.even f then f else f + 1
  end.

(** [floor (log2 a)] for a positive rational [a]. *)
Definition ilog2 (a : Q) : Z :=
  let e := Z.log2 (Qnum a) - Z.log2 (Zpos (Qden a)) in
  if Qle_bool (pow2 e) a then e else e - 1.

(** Rounding of a real to binary64: 53 significant bits, exponents from
    -1074 (subnormals) up, overflow to infinity. *)
Definition binary64 (q : Q) : number :=
  match Qnum q with
  | Z0 => Fin 0
  | _ =>
    let a := Qabs q in
    let p := Z.max (ilog2 a - 52) (-1074) in
    let m := round_half_even (a / pow2 p) in
    let v := Qred (inject_Z m * pow2 p) in
    if Qle_bool (pow2 1024) v then Inf (Qnum q <? 0)
    else Fin (if Qnum q <? 0 then Qred (- v) else v)
  end.

(** [x <= y] and [x >= y] of JavaScript: false as soon as one side is
    [NaN]. *)
Definition le (x y : number) : bool :=
  match x, y with
  | NaN, _ | _, NaN => false
  | Inf true, _ => true
  | _, Inf false => true
  | Inf false, _ => false
  | _, Inf true => false
  | Fin a, Fin b => Qle_bool a b
  end.

Definition ge (x y : number) : bool := le y x.

(** [x / d] and [x * d] for a positive finite constant [d]. *)
Definition div (x : number) (d : Q) : number :=
  match x with
  | Fin a => binary64 (a / d)
  | other => other
  end.

Definition mul (x : number) (d : Q) : number :=
  match x with
  | Fin a => binary64 (a * d)
  | other => other
  end.

(** [Math.round]: the nearest integer, a tie going up. *)
Definition Math_round (x : number) : number :=
  match x with
  | Fin a => Fin (inject_Z (Qfloor (a + (1 # 2))))
  | other => other
  end.

(** The order of the extended reals on numbers; [NaN] is related to
    nothing. *)
Definition leq (x y : number) : Prop :=
  match x, y with
  | NaN, _ | _, NaN => False
  | Inf true, _ => True
  | _, Inf false => True
  | Inf false, _ => False
  | _, Inf true => False
  | Fin a, Fin b => (a <= b)%Q
  end.

Definition lt (x y : number) : Prop :=
  match x, y with
  | NaN, _ | _, NaN => False
  | Inf true, Inf true => False
  | Inf true, _ => True
  | Inf false, _ => False
  | Fin _, Inf false => True
  | Fin _, Inf true => False
  | Fin a, Fin b => (a < b)%Q
  end.

End Number.
Export Number.

(** The number a primitive float of the kernel denotes, to compare
    [binary64] with the hardware's rounding. *)
Definition of_float (f : float) : number :=
  match Prim2SF f with
  | S754_zero _ => Fin 0
  | S754_infinity s => Inf s
  | S754_nan => NaN
  | S754_finite s m e =>
    Fin (Qred ((if s then -1 else 1) * inject_Z (Zpos m) * pow2 e))
  end.

Declare Scope number_scope.
Delimit Scope number_scope with num.
Bind Scope number_scope with number.
Infix "<=" := Number.leq : number_scope.
Infix "<" := Number.lt : number_scope.

(** ** Errors

    A call either returns or raises; what the program can raise on the
    paths followed here is one of three errors. *)

Inductive error : Type := TypeError | SyntaxError | RangeError.

Inductive completion (A : Type) : Type :=
  | Normal (a : A)
  | Throw (e : error).
Arguments Normal {A} a.
Arguments Throw {A} e.

#[global] Instance completion_ret : MRet completion := fun A a => Normal a.
#[global] Instance completion_bind : MBind completion := fun A B k c =>
  match c with
  | Normal a => k a
  | Throw e => Throw e
  end.

(** [try { body } catch { handler }]. *)
Definition try_catch {A} (body handler : completion A) : completion A :=
  match body with
  | Normal a => Normal a
  | Throw _ => handler
  end.

(** ** Text of numbers

    Two conversions of the JavaScript runtime are taken as given rather
    than rebuilt, and the functions that need them take them as a
    parameter: [shortest_digits], the digit string [Number::toString]
    gives a finite number that is not an integer of size at most 2^53
    (the shortest digits that read back to the same binary64 value); and,
    for the export, [Date_toISOString], what [new Date(v).toISOString()]
    returns, [None] when it raises a [RangeError] on an invalid date. *)

Module Text.

Definition digit (d : Z) : ascii := ascii_of_nat (48 + Z.to_nat d).

(** The decimal digits of a natural number, most significant first. *)
Fixpoint digits_from (fuel : nat) (n : Z) (acc : string) : string :=
  match fuel with
  | O => acc
  | S fuel' =>
    let acc' := String (digit (n mod 10)) acc in
    if n <? 10 then acc' else digits_from fuel' (n / 10) acc'
  end.

Definition decimal (n : Z) : string :=
  digits_from (S (Z.to_nat (Z.log2 n))) n "".

Definition zeros (k : nat) : string := string_of_list_ascii (repeat "0"%char k).

Definition str_take (k : nat) (s : string) : string := substring 0 k s.
Definition str_drop (k : nat) (s : string) : string :=
  substring k (String.length s - k) s.

(** The numeral of [r] on exactly [f] digits, zeros in front. *)
Fixpoint padded (f : nat) (r : Z) : string :=
  match f with
  | O => ""
  | S f' => padded f' (r / 10) ++ String (digit (r mod 10)) ""
  end.

(** The numeral with [f] fraction digits of the number [n / 10^f]. *)
Definition fixed_point (f : nat) (n : Z) : string :=
  decimal (n / 10 ^ Z.of_nat f) ++ "." ++ padded f (n mod 10 ^ Z.of_nat f).

(** The numeral of an integer, a minus sign before a negative one. *)
Definition signed_decimal (z : Z) : string :=
  (if z <? 0 then "-" else "") ++ decimal (Z.abs z).

Section WithDigits.
Variable shortest_digits : Q -> string.

(** [Number::toString] (radix 10), which [String(x)] and string
    concatenation apply to a number. *)
Definition Number_toString (x : number) : string :=
  match x with
  | NaN => "NaN"
  | Inf false => "Infinity"
  | Inf true => "-Infinity"
  | Fin q =>
    if Qeq_bool q (inject_Z (Qfloor q)) && Qle_bool (Qabs q) (inject_Z (2 ^ 53))
    then (if Qfloor q <? 0 then "-" else "") ++ decimal (Z.abs (Qfloor q))
    else shortest_digits q
  end.

(** [Number.prototype.toFixed] with [f] fraction digits. *)
Definition toFixed (x : number) (f : nat) : string :=
  match x with
  | Fin q =>
    let a := Qabs q in
    let s := if Qnum q <? 0 then "-" else "" in
    if Qle_bool (inject_Z (10 ^ 21)) a then s ++ Number_toString (Fin a)
    else
      let n := Qfloor (a * inject_Z (10 ^ Z.of_nat f) + (1 # 2)) in
      let m := decimal n in
      match f with
      | O => s ++ m
      | _ =>
        let k := String.length m in
        let m' := if (k <=? f)%nat then zeros (f + 1 - k) ++ m else m in
        let k' := String.length m' in
        s ++ str_take (k' - f) m' ++ "." ++ str_drop (k' - f) m'
      end
  | other => Number_toString other
  end.

End WithDigits.
End Text.
Export Text.

(** ** Constants and threshold table *)

Definition MAX_HISTORY : nat := 50.

Record Threshold : Type := {
  good : number;
  poor : number;
  unit : string;
  label : string
}.

(** A numeric literal of the source denotes the binary64 value nearest
    to it ([binary64]). *)
Definition THRESHOLDS : gmap string Threshold :=
  <[ "LCP" := {| good := binary64 2500; poor := binary64 4000; unit := "ms";
                 label := "Largest Contentful Paint" |} ]>
  (<[ "FID" := {| good := binary64 100; poor := binary64 300; unit := "ms";
                  label := "First Input Delay" |} ]>
  (<[ "CLS" := {| good := binary64 (1 # 10); poor := binary64 (25 # 100); unit := "";
                  label := "Cumulative Layout Shift" |} ]>
  (<[ "TTFB" := {| good := binary64 800; poor := binary64 1800; unit := "ms";
                   label := "Time to First Byte" |} ]>
  (<[ "FCP" := {| good := binary64 1800; poor := binary64 3000; unit := "ms";
                  label := "First Contentful Paint" |} ]>
  (<[ "INP" := {| good := binary64 200; poor := binary64 500; unit := "ms";
                  label := "Interaction to Next Paint" |} ]>
  ∅))))).

(** The members a plain object such as [THRESHOLDS] inherits from
    [Object.prototype], by name, as the standard gives them (no other
    script adding to the prototype). *)
Definition Object_prototype : list string :=
  ["constructor"; "hasOwnProperty"; "isPrototypeOf"; "propertyIsEnumerable";
   "toLocaleString"; "toString"; "valueOf"; "__proto__";
   "__defineGetter__"; "__defineSetter__"; "__lookupGetter__"; "__lookupSetter__"].

(** What [THRESHOLDS[metric]] evaluates to: an entry of the table; or a
    member inherited from [Object.prototype], which is a function (the
    prototype itself for [__proto__]), hence truthy, and has no [good],
    [poor], [unit] or [label]; or [undefined]. *)
Inductive looked_up : Type :=
  | Entry (t : Threshold)
  | Inherited
  | Undefined.

Definition THRESHOLDS_at (metric : string) : looked_up :=
  match THRESHOLDS !! metric with
  | Some t => Entry t
  | None =>
    if existsb (String.eqb metric) Object_prototype then Inherited else Undefined
  end.

(** ** Metric extraction *)

(** The provider's response, in the shape [extractMetrics] reads it: every
    member may be missing ([None] stands for both [null] and [undefined],
    which [?.], [??] and [!= null] treat alike). *)
Module PageSpeed.

Record CruxMetric : Type := { percentile : option number }.
Record Audit : Type := { numericValue : option number }.
Record LoadingExperience : Type := { metrics : option (gmap string CruxMetric) }.
Record Category : Type := { score : option number }.
Record Categories : Type := { performance : option Category }.
Record LighthouseResult : Type := {
  audits : option (gmap string Audit);
  categories : option Categories
}.
Record Response : Type := {
  loadingExperience : option LoadingExperience;
  lighthouseResult : option LighthouseResult
}.

End PageSpeed.

Record Metrics : Type := {
  score : option number;
  LCP : option number;
  FID : option number;
  CLS : option number;
  TTFB : option number;
  FCP : option number;
  INP : option number
}.

(** [a ?? b]. *)
Definition nullish {A} (a b : option A) : option A :=
  match a with
  | Some x => Some x
  | None => b
  end.
Infix "??" := nullish (at level 45, right associativity).

(** [o?.f]: the member [f] of [o], absent when [o] is. *)
Definition chain {A B} (o : option A) (f : A -> option B) : option B :=
  match o with
  | Some x => f x
  | None => None
  end.
Notation "o ?. f" := (chain o f) (at level 40, left associativity).

(** [m || {}] for a member that holds an object when present. *)
Definition or_empty {V} (m : option (gmap string V)) : gmap string V :=
  match m with
  | Some x => x
  | None => ∅
  end.

Definition numericAudit (audits : gmap string PageSpeed.Audit) (id : string)
  : option number :=
  match audits !! id ?. PageSpeed.numericValue with
  | Some val => Some (Math_round val)
  | None => None
  end.

Definition cruxVal (crux : gmap string PageSpeed.CruxMetric) (key : string)
  : option number :=
  crux !! key ?. PageSpeed.percentile ?? None.

Definition extractMetrics (data : PageSpeed.Response) : Metrics :=
  let crux := or_empty (PageSpeed.loadingExperience data ?. PageSpeed.metrics) in
  let audits := or_empty (PageSpeed.lighthouseResult data ?. PageSpeed.audits) in
  let score := PageSpeed.lighthouseResult data ?. PageSpeed.categories
               ?. PageSpeed.performance ?. PageSpeed.score in
  let lcp := cruxVal crux "LARGEST_CONTENTFUL_PAINT_MS"
             ?? numericAudit audits "largest-contentful-paint" in
  let fid := cruxVal crux "FIRST_INPUT_DELAY_MS" ?? None in
  let cls := match crux !! "CUMULATIVE_LAYOUT_SHIFT_SCORE" ?. PageSpeed.percentile with
             | Some p => Some (Number.div p 100)
             | None => numericAudit audits "cumulative-layout-shift"
             end in
  let fcp := cruxVal crux "FIRST_CONTENTFUL_PAINT_MS"
             ?? numericAudit audits "first-contentful-paint" in
  let inp := cruxVal crux "INTERACTION_TO_NEXT_PAINT"
             ?? cruxVal crux "EXPERIMENTAL_INTERACTION_TO_NEXT_PAINT" ?? None in
  let ttfb := cruxVal crux "EXPERIMENTAL_TIME_TO_FIRST_BYTE"
              ?? numericAudit audits "server-response-time" in
  {| score := match score with
              | Some s => Some (Math_round (Number.mul s 100))
              | None => None
              end;
     LCP := lcp; FID := fid; CLS := cls; TTFB := ttfb; FCP := fcp; INP := inp |}.

(** The two sources of a metric as the response holds them: the field
    percentile under a CrUX key, and the lab value of a Lighthouse audit. *)
Definition field_percentile (data : PageSpeed.Response) (key : string)
  : option number :=
  match PageSpeed.loadingExperience data with
  | Some experience =>
    match PageSpeed.metrics experience with
    | Some crux =>
      match crux !! key with
      | Some entry => PageSpeed.percentile entry
      | None => None
      end
    | None => None
    end
  | None => None
  end.

Definition lab_value (data : PageSpeed.Response) (id : string) : option number :=
  match PageSpeed.lighthouseResult data with
  | Some lighthouse =>
    match PageSpeed.audits lighthouse with
    | Some audits =>
      match audits !! id with
      | Some audit => PageSpeed.numericValue audit
      | None => None
      end
    | None => None
    end
  | None => None
  end.

(** Responses with field data only, with lab data only, and with neither. *)
Definition field_only (key : string) (p : number) : PageSpeed.Response :=
  {| PageSpeed.loadingExperience :=
       Some {| PageSpeed.metrics :=
                 Some {[ key := {| PageSpeed.percentile := Some p |} ]} |};
     PageSpeed.lighthouseResult := None |}.

Definition lab_only (id : string) (v : number) : PageSpeed.Response :=
  {| PageSpeed.loadingExperience := None;
     PageSpeed.lighthouseResult :=
       Some {| PageSpeed.audits :=
                 Some {[ id := {| PageSpeed.numericValue := Some v |} ]};
               PageSpeed.categories := None |} |}.

Definition no_data : PageSpeed.Response :=
  {| PageSpeed.loadingExperience := None; PageSpeed.lighthouseResult := None |}.

(** ** Rating *)

(** The four ratings, ['na'], ['good'], ['needs-improvement'] and
    ['poor'] in the source. *)
Inductive Rating : Type := na | good_rating | needs_improvement | poor_rating.

(** For an inherited member [t.good] and [t.poor] are [undefined], and a
    comparison with [undefined] is one with [NaN]. *)
Definition getRating (metric : string) (value : option number) : Rating :=
  match value with
  | None => na
  | Some value =>
    match THRESHOLDS_at metric with
    | Undefined => na
    | Entry t =>
      if Number.le value (good t) then good_rating
      else if Number.le value (poor t) then needs_improvement
      else poor_rating
    | Inherited =>
      if Number.le value NaN then good_rating
      else if Number.le value NaN then needs_improvement
      else poor_rating
    end
  end.

Definition getScoreRating (score : option number) : Rating :=
  match score with
  | None => na
  | Some score =>
    if Number.ge score (Fin 90) then good_rating
    else if Number.ge score (Fin 50) then needs_improvement
    else poor_rating
  end.

(** ** Formatting *)

Section Format.
Variable shortest_digits : Q -> string.

(** For an inherited member [t.unit] is [undefined]: it is not ['ms'],
    and it is written out as the text [undefined]. *)
Definition formatValue (metric : string) (value : option number) : string :=
  match value with
  | None => "N/A"
  | Some value =>
    match THRESHOLDS_at metric with
    | Undefined => Number_toString shortest_digits value
    | Entry t =>
      if String.eqb metric "CLS" then toFixed shortest_digits value 3
      else if String.eqb (unit t) "ms" && Number.ge value (Fin 1000)
      then toFixed shortest_digits (Number.div value 1000) 2 ++ " s"
      else Number_toString shortest_digits (Math_round value) ++ " " ++ unit t
    | Inherited =>
      if String.eqb metric "CLS" then toFixed shortest_digits value 3
      else Number_toString shortest_digits (Math_round value) ++ " " ++ "undefined"
    end
  end.

End Format.

(** ** Session result list *)

(** [ToIntegerOrInfinity], which [splice] applies to its start index. *)
Inductive integer_or_infinity : Type :=
  | Int (z : Z)
  | PlusInfinity
  | MinusInfinity.

Definition ToIntegerOrInfinity (x : number) : integer_or_infinity :=
  match x with
  | NaN => Int 0
  | Inf false => PlusInfinity
  | Inf true => MinusInfinity
  | Fin q => Int (Z.quot (Qnum q) (Zpos (Qden q)))
  end.

(** The array left by [a.splice(start, deleteCount)]. *)
Definition splice {A} (a : list A) (start : number) (deleteCount : Z) : list A :=
  let len := Z.of_nat (length a) in
  let actualStart :=
    match ToIntegerOrInfinity start with
    | MinusInfinity => 0
    | Int relativeStart =>
      if relativeStart <? 0 then Z.max (len + relativeStart) 0
      else Z.min relativeStart len
    | PlusInfinity => len
    end in
  let actualDeleteCount := Z.min (Z.max deleteCount 0) (len - actualStart) in
  take (Z.to_nat actualStart) a
  ++ drop (Z.to_nat (actualStart + actualDeleteCount)) a.

(** The click handler of a card's remove button, [idx] being what
    [parseInt] made of the button's [data-index]: an integer or [NaN]. *)
Definition removeAt {A} (currentResults : list A) (idx : number) : list A :=
  splice currentResults idx 1.

(** ** History store *)

(** A value of JSON, as [JSON.parse] returns it. *)
#[warnings="-register-all"]
Inductive json : Type :=
  | JNull
  | JBool (b : bool)
  | JNumber (n : number)
  | JString (s : string)
  | JArray (elements : list json)
  | JObject (members : list (string * json)).

(** What [JSON.parse (JSON.stringify v)] is: a number that is not finite
    is written as [null]. *)
Fixpoint rewritten (v : json) : json :=
  match v with
  | JNumber (Fin q) => JNumber (Fin q)
  | JNumber _ => JNull
  | JArray l => JArray (map rewritten l)
  | JObject m => JObject (map (fun kv => (fst kv, rewritten (snd kv))) m)
  | other => other
  end.

(** The text held under [HISTORY_KEY], told by what [JSON.parse] makes of
    it: a [SyntaxError], or a value. *)
Inductive item : Type :=
  | Malformed
  | Text (v : json).

(** [localStorage], as far as [HISTORY_KEY] goes: [None] when the key is
    not set. *)
Definition storage : Type := option item.

Definition getItem (st : storage) : option item := st.

(** [JSON.parse] of what [getItem] returned; [null] is read as the text
    ["null"]. *)
Definition JSON_parse (text : option item) : completion json :=
  match text with
  | None => Normal JNull
  | Some Malformed => Throw SyntaxError
  | Some (Text v) => Normal v
  end.

Definition truthy (v : json) : bool :=
  match v with
  | JNull => false
  | JBool b => b
  | JNumber NaN => false
  | JNumber (Inf _) => true
  | JNumber (Fin q) => negb (Qeq_bool q 0)
  | JString s => negb (String.eqb s "")
  | JArray _ | JObject _ => true
  end.

Definition getHistory (st : storage) : completion json :=
  try_catch
    (v ← JSON_parse (getItem st);
     mret (if truthy v then v else JArray []))
    (mret (JArray [])).

(** [saveToHistory] up to its write to storage (the rendering that follows
    is presentation); the storage afterwards, or the error raised. *)
Definition saveToHistory (entry : json) (st : storage) : completion storage :=
  history ← getHistory st;
  match history with
  | JArray history =>
    let history := entry :: history in
    let history :=
      if (MAX_HISTORY <? length history)%nat then take MAX_HISTORY history
      else history in
    mret (Some (Text (rewritten (JArray history))))
  | _ => Throw TypeError
  end.

(** A run of [saveToHistory] calls, one per entry, in order. *)
Fixpoint appends (entries : list json) (st : storage) : completion storage :=
  match entries with
  | [] => mret st
  | entry :: later => st' ← saveToHistory entry st; appends later st'
  end.

(** [localStorage.removeItem(HISTORY_KEY)]. *)
Definition clearHistory (st : storage) : storage := None.

(** A record as the submit handler writes it, told from the others by
    its score; and a history at capacity, records 50 down to 1, the most
    recent first. *)
Definition sample_record (n : Z) : json :=
  JObject [("url", JString "https://example.com"); ("strategy", JString "mobile");
           ("score", JNumber (Fin (inject_Z n))); ("LCP", JNumber (Fin 1200));
           ("FID", JNull); ("CLS", JNumber (Fin (5 # 100))); ("TTFB", JNumber (Fin 300));
           ("FCP", JNumber (Fin 900)); ("INP", JNull);
           ("date", JString "2024-05-01T10:00:00.000Z")].

Definition full_history : list json :=
  map (fun n => sample_record (Z.of_nat n)) (rev (seq 1 50)).

(** ** Export *)

Definition dquote : ascii := ascii_of_nat 34.
Definition comma : ascii := ",".
Definition newline : ascii := ascii_of_nat 10.

(** [a.join(sep)] on strings. *)
Fixpoint join (sep : string) (a : list string) : string :=
  match a with
  | [] => ""
  | [x] => x
  | x :: rest => x ++ sep ++ join sep rest
  end.

(** The global [replace] of the encoder: every double quote is written
    twice. *)
Fixpoint double_quotes (s : string) : string :=
  match s with
  | EmptyString => EmptyString
  | String c rest =>
    if Ascii.eqb c dquote then String dquote (String dquote (double_quotes rest))
    else String c (double_quotes rest)
  end.

(** The member [h.key] of a parsed value, for the keys this program
    reads (none of them a member that strings, numbers, booleans or arrays
    have of their own, nor one that an object inherits): [None] is
    [undefined], and reading a member of [null] raises.  Of a member
    written twice the last one counts. *)
Definition member (h : json) (key : string) : completion (option json) :=
  match h with
  | JNull => Throw TypeError
  | JObject m =>
    Normal (foldl (fun found kv => if String.eqb (fst kv) key then Some (snd kv) else found)
                  None m)
  | _ => Normal None
  end.

(** Whether an object has a member [key] of its own. *)
Definition has_own (m : list (string * json)) (key : string) : bool :=
  existsb (fun kv => String.eqb (fst kv) key) m.

Section ExportEncoder.
Variable shortest_digits : Q -> string.
Variable Date_toISOString : option json -> option string.

(** [String(v)].  An array is converted by [join], which converts each
    element in turn.  An object is converted by its [toString]: the one of
    [Object.prototype] unless the object has a member of that name of its
    own, which in a value of JSON is no function; [valueOf] is tried next
    and gives no primitive, and the conversion raises. *)
Fixpoint String_of (v : json) : completion string :=
  match v with
  | JNull => mret "null"
  | JBool true => mret "true"
  | JBool false => mret "false"
  | JNumber n => mret (Number_toString shortest_digits n)
  | JString s => mret s
  | JArray l =>
    parts ← mapM (fun e => match e with JNull => mret "" | _ => String_of e end) l;
    mret (join "," parts)
  | JObject m =>
    if has_own m "toString" then Throw TypeError else mret "[object Object]"
  end.

Definition String_ (v : option json) : completion string :=
  match v with
  | None => mret "undefined"
  | Some v => String_of v
  end.

(** [ToPrimitive(v)] as far as raising goes: a number, a string, a
    boolean, [null] and [undefined] are primitives already; an array or an
    object is converted by its [toString] as in [String(v)], its [valueOf]
    giving back the object itself. *)
Definition ToPrimitive (v : option json) : completion Datatypes.unit :=
  match v with
  | Some (JArray l) => _ ← String_of (JArray l); mret tt
  | Some (JObject m) => _ ← String_of (JObject m); mret tt
  | _ => mret tt
  end.

(** [v ?? s] with the empty string for [s]. *)
Definition or_blank (v : option json) : option json :=
  match v with
  | None | Some JNull => Some (JString "")
  | other => other
  end.

Definition headers : list (option json) :=
  map (fun s => Some (JString s))
      ["Date"; "URL"; "Strategy"; "Score"; "LCP"; "FID"; "CLS"; "TTFB"; "FCP"; "INP"].

(** The cells of the row of one history entry.  [new Date(h.date)]
    converts a date that is an object, which may raise; [toISOString]
    raises on a date that is not valid. *)
Definition row (h : json) : completion (list (option json)) :=
  date ← member h "date";
  _ ← ToPrimitive date;
  iso ← match Date_toISOString date with
        | Some s => Normal s
        | None => Throw RangeError
        end;
  url ← member h "url";
  strategy ← member h "strategy";
  score ← member h "score";
  lcp ← member h "LCP";
  fid ← member h "FID";
  cls ← member h "CLS";
  ttfb ← member h "TTFB";
  fcp ← member h "FCP";
  inp ← member h "INP";
  mret [Some (JString iso); url; strategy; or_blank score; or_blank lcp; or_blank fid;
        or_blank cls; or_blank ttfb; or_blank fcp; or_blank inp].

Definition quoted (v : option json) : completion string :=
  text ← String_ v;
  mret (String dquote (double_quotes text ++ String dquote "")).

Definition csv_of (table : list (list (option json))) : completion string :=
  lines ← mapM (fun r => cells ← mapM quoted r; mret (join "," cells)) table;
  mret (join (String newline "") lines).

(** [exportHistoryCSV]: the text of the file offered for download, or
    [None] when the function returns without producing one. *)
Definition exportHistoryCSV (st : storage) : completion (option string) :=
  history ← getHistory st;
  match history with
  | JArray [] => mret None
  | JArray history =>
    rows ← mapM row history;
    csv ← csv_of (headers :: rows);
    mret (Some csv)
  | JObject m =>
    length ← member (JObject m) "length";
    match length with
    | Some (JNumber (Fin q)) => if Qeq_bool q 0 then mret None else Throw TypeError
    | _ => Throw TypeError
    end
  | JString s => if String.eqb s "" then mret None else Throw TypeError
  | _ => Throw TypeError
  end.

End ExportEncoder.

(** *** The table of the export, in the spec's words

    The columns after the timestamp, in their fixed order: the member of
    the record each one reads, and whether an absent value is written as
    an empty field. *)
Definition export_columns : list (string * bool) :=
  [("url", false); ("strategy", false); ("score", true); ("LCP", true);
   ("FID", true); ("CLS", true); ("TTFB", true); ("FCP", true); ("INP", true)].

Definition header_names : list string :=
  ["Date"; "URL"; "Strategy"; "Score"; "LCP"; "FID"; "CLS"; "TTFB"; "FCP"; "INP"].

(** The text of one column of a record: that of the member it reads,
    empty instead when the value is absent and the column says so. *)
Definition column_text (shortest_digits : Q -> string) (h : json)
    (column : string * bool) : completion string :=
  v ← member h (fst column);
  match v with
  | None | Some JNull =>
    if snd column then mret "" else String_ shortest_digits v
  | Some _ => String_ shortest_digits v
  end.

(** [fields] are the fields of the record [h] in the export: its
    timestamp in ISO form, then the text of each column.  There are none
    when [h] is [null], when its date cannot be converted or is one
    [toISOString] refuses, or when a member cannot be converted to
    text. *)
Definition exported (shortest_digits : Q -> string)
    (Date_toISOString : option json -> option string)
    (h : json) (fields : list string) : Prop :=
  exists (d : option json) (iso : string) (texts : list string),
    member h "date" = Normal d /\
    ToPrimitive shortest_digits d = Normal tt /\
    Date_toISOString d = Some iso /\
    mapM (column_text shortest_digits h) export_columns = Normal texts /\
    fields = (iso :: texts)%list.

(** A field between double quotes, a record of such fields, and a text of
    such records, on strings. *)
Definition quote_field (s : string) : string :=
  String dquote (double_quotes s ++ String dquote "").

Definition csv_line (fields : list string) : string :=
  join "," (map quote_field fields).

Definition csv_text (records : list (list string)) : string :=
  join (String newline "") (map csv_line records).

(** *** Reading CSV back

    A reader of RFC 4180 text with line feeds between records: a field is
    either bare, or enclosed in double quotes with every double quote
    inside it written twice. *)

Inductive reader : Type := FieldStart | Bare | Quoted | QuoteSeen.

Definition snoc (s : string) (c : ascii) : string := s ++ String c "".

Fixpoint read_csv (text : string) (state : reader) (field : string)
    (record : list string) (records : list (list string))
  : option (list (list string)) :=
  match text with
  | EmptyString =>
    match state with
    | Quoted => None
    | FieldStart =>
      match record with
      | [] => Some records
      | _ => Some (records ++ [record ++ [field]])%list
      end
    | Bare | QuoteSeen => Some (records ++ [record ++ [field]])%list
    end
  | String c rest =>
    match state with
    | Quoted =>
      if Ascii.eqb c dquote then read_csv rest QuoteSeen field record records
      else read_csv rest Quoted (snoc field c) record records
    | QuoteSeen =>
      if Ascii.eqb c dquote then read_csv rest Quoted (snoc field c) record records
      else if Ascii.eqb c comma then read_csv rest FieldStart "" (record ++ [field])%list records
      else if Ascii.eqb c newline
      then read_csv rest FieldStart "" [] (records ++ [record ++ [field]])%list
      else None
    | FieldStart | Bare =>
      if Ascii.eqb c dquote then
        match state with
        | FieldStart => read_csv rest Quoted "" record records
        | _ => None
        end
      else if Ascii.eqb c comma then read_csv rest FieldStart "" (record ++ [field])%list records
      else if Ascii.eqb c newline
      then read_csv rest FieldStart "" [] (records ++ [record ++ [field]])%list
      else read_csv rest Bare (snoc field c) record records
    end
  end.

Definition parse_csv (text : string) : option (list (list string)) :=
  read_csv text FieldStart "" [] [].

From Stdlib Require Import Qpower.

(** ** Helpers of the history list *)

(** [s.replace] with a one-character global pattern: every [c] in [s] is
    replaced by [replacement]. *)
Fixpoint replace_all (c : ascii) (replacement : string) (s : string) : string :=
  match s with
  | EmptyString => EmptyString
  | String x rest =>
    if Ascii.eqb x c then replacement ++ replace_all c replacement rest
    else String x (replace_all c replacement rest)
  end.

(** [escapeAttr]: ampersands first, double quotes next. *)
Definition escapeAttr (str : string) : string :=
  replace_all dquote "&quot;" (replace_all "&" "&amp;" str).

(** A decoder for [escapeAttr], by which it is shown to lose nothing: the
    two character references it writes are put back.  It stands for no
    function of the source, nor for the parser of a browser. *)
Fixpoint unescapeAttr (s : string) : string :=
  match s with
  | EmptyString => EmptyString
  | String c rest =>
    if Ascii.eqb c "&" then
      match rest with
      | String c1 (String c2 (String c3 (String c4 rest4))) =>
        if Ascii.eqb c1 "a" && Ascii.eqb c2 "m" && Ascii.eqb c3 "p" && Ascii.eqb c4 ";"
        then String "&" (unescapeAttr rest4)
        else
          match rest4 with
          | String c5 rest5 =>
            if Ascii.eqb c1 "q" && Ascii.eqb c2 "u" && Ascii.eqb c3 "o"
               && Ascii.eqb c4 "t" && Ascii.eqb c5 ";"
            then String dquote (unescapeAttr rest5)
            else String c (unescapeAttr rest)
          | EmptyString => String c (unescapeAttr rest)
          end
      | _ => String c (unescapeAttr rest)
      end
    else String c (unescapeAttr rest)
  end.

(** Whether the character [c] occurs in [s]. *)
Fixpoint occurs (c : ascii) (s : string) : bool :=
  match s with
  | EmptyString => false
  | String x rest => Ascii.eqb x c || occurs c rest
  end.

(** ** Order of ratings *)

(** How bad a rating is: good, then needs-improvement, then poor. *)
Definition severity (r : Rating) : nat :=
  match r with
  | na => 0
  | good_rating => 1
  | needs_improvement => 2
  | poor_rating => 3
  end.

(** ** The provider's score *)

(** The aggregate score as the response holds it,
    [data.lighthouseResult?.categories?.performance?.score]. *)
Definition provider_score (data : PageSpeed.Response) : option number :=
  match PageSpeed.lighthouseResult data with
  | Some lighthouse =>
    match PageSpeed.categories lighthouse with
    | Some categories =>
      match PageSpeed.performance categories with
      | Some performance => PageSpeed.score performance
      | None => None
      end
    | None => None
    end
  | None => None
  end.

(** A response that holds a score and nothing else. *)
Definition score_only (s : number) : PageSpeed.Response :=
  {| PageSpeed.loadingExperience := None;
     PageSpeed.lighthouseResult :=
       Some {| PageSpeed.audits := None;
               PageSpeed.categories :=
                 Some {| PageSpeed.performance :=
                           Some {| PageSpeed.score := Some s |} |} |} |}.

(** ** Session results and their cards *)

(** A result of the session, [{ url, strategy, metrics, date }]. *)
Record Result : Type := {
  url : string;
  strategy : string;
  metrics : Metrics;
  date : string
}.

(** The keys [renderResults] goes through, in its order. *)
Definition metric_keys : list string := ["LCP"; "FID"; "CLS"; "TTFB"; "FCP"; "INP"].

(** [result.metrics[key]]. *)
Definition metric_of (m : Metrics) (key : string) : option number :=
  if String.eqb key "score" then score m
  else if String.eqb key "LCP" then LCP m
  else if String.eqb key "FID" then FID m
  else if String.eqb key "CLS" then CLS m
  else if String.eqb key "TTFB" then TTFB m
  else if String.eqb key "FCP" then FCP m
  else if String.eqb key "INP" then INP m
  else None.

(** What [renderResults] puts on the page, the markup around it left
    out: whether the section is hidden and, for each result, its card. *)
Record Tile : Type := {
  tile_title : string;
  tile_name : string;
  tile_rating : Rating;
  tile_value : string
}.

Record Card : Type := {
  data_index : string;
  site_url : string;
  strategy_badge : string;
  score_rating : Rating;
  score_text : string;
  metric_tiles : list Tile
}.

Record ResultsView : Type := {
  hidden : bool;
  cards : list Card
}.

Section Render.
Variable shortest_digits : Q -> string.
(** [escapeHTML], which asks the document to escape a text. *)
Variable escapeHTML : string -> string.

(** One tile; reading [label] of [undefined] would raise, and the
    [label] of an inherited member is [undefined], written out as such. *)
Definition metric_tile (m : Metrics) (key : string) : completion Tile :=
  let val := metric_of m key in
  let rating := getRating key val in
  match THRESHOLDS_at key with
  | Entry t =>
    Normal {| tile_title := label t; tile_name := key; tile_rating := rating;
              tile_value := formatValue shortest_digits key val |}
  | Inherited =>
    Normal {| tile_title := "undefined"; tile_name := key; tile_rating := rating;
              tile_value := formatValue shortest_digits key val |}
  | Undefined => Throw TypeError
  end.

Definition card (index : nat) (result : Result) : completion Card :=
  let scoreRating := getScoreRating (score (metrics result)) in
  tiles ← mapM (metric_tile (metrics result)) metric_keys;
  mret {| data_index :=
            Number_toString shortest_digits (Fin (inject_Z (Z.of_nat index)));
          site_url := escapeHTML (url result);
          strategy_badge := strategy result;
          score_rating := scoreRating;
          score_text := match score (metrics result) with
                        | Some s => Number_toString shortest_digits s
                        | None => "?"
                        end;
          metric_tiles := tiles |}.

(** The cards of [currentResults.forEach], the first one at [index]. *)
Fixpoint cards_from (index : nat) (results : list Result) : completion (list Card) :=
  match results with
  | [] => mret []
  | result :: later =>
    c ← card index result;
    cs ← cards_from (S index) later;
    mret (c :: cs)
  end.

Definition renderResults (currentResults : list Result) : completion ResultsView :=
  cs ← cards_from 0 currentResults;
  mret {| hidden := match currentResults with [] => true | _ => false end;
          cards := cs |}.

End Render.

(** The tile of a kind of the table, spelled out. *)
Definition tile_of (shortest_digits : Q -> string) (m : Metrics) (key : string) : Tile :=
  {| tile_title := match THRESHOLDS !! key with Some t => label t | None => "" end;
     tile_name := key;
     tile_rating := getRating key (metric_of m key);
     tile_value := formatValue shortest_digits key (metric_of m key) |}.

(** *** [parseInt] in radix 10 *)

Definition is_space (c : ascii) : bool :=
  let n := nat_of_ascii c in
  ((9 <=? n) && (n <=? 13) || (n =? 32) || (n =? 160))%nat.

Fixpoint skip_spaces (s : string) : string :=
  match s with
  | String c rest => if is_space c then skip_spaces rest else s
  | EmptyString => EmptyString
  end.

Definition digit_value (c : ascii) : option Z :=
  let n := nat_of_ascii c in
  if ((48 <=? n) && (n <=? 57))%nat then Some (Z.of_nat n - 48) else None.

(** The value of the digits [s] starts with, after those of [acc]. *)
Fixpoint read_digits (s : string) (acc : Z) : Z :=
  match s with
  | String c rest =>
    match digit_value c with
    | Some d => read_digits rest (10 * acc + d)
    | None => acc
    end
  | EmptyString => acc
  end.

(** [parseInt(s, 10)]: blanks skipped, a sign, then the digits up to the
    first character that is none; [NaN] when there is no digit.  (Past
    twenty digits the standard leaves the rounding to the engine; here it
    is that of [binary64] throughout.) *)
Definition parseInt (s : string) : number :=
  let s := skip_spaces s in
  let signed :=
    match s with
    | String c rest =>
      if Ascii.eqb c "-" then (true, rest)
      else if Ascii.eqb c "+" then (false, rest)
      else (false, s)
    | EmptyString => (false, s)
    end in
  match snd signed with
  | String c _ =>
    match digit_value c with
    | Some _ =>
      let z := read_digits (snd signed) 0 in
      binary64 (inject_Z (if fst signed then - z else z))
    | None => NaN
    end
  | EmptyString => NaN
  end.

(** Whether [s] is made of digits only. *)
Fixpoint digits_only (s : string) : bool :=
  match s with
  | String c rest =>
    match digit_value c with
    | Some _ => digits_only rest
    | None => false
    end
  | EmptyString => true
  end.

(** The click on the remove button of a card. *)
Definition clickRemove (c : Card) (currentResults : list Result) : list Result :=
  removeAt currentResults (parseInt (data_index c)).

(** ** The submit handler *)

Section History.
Variable shortest_digits : Q -> string.

(** [renderHistory] as far as raising goes (its markup is presentation):
    it reads the history and returns at once when it is empty.  For every
    entry, in the order of the source: [getScoreRating(h.score)] compares
    the score with a number, which converts a score that is an object;
    [new Date(h.date)] converts a date that is an object;
    [escapeAttr(h.url)] raises unless the URL is a string; the template
    takes the text of [h.strategy] and of [h.score ?? '?']. *)
Definition history_item (h : json) : completion Datatypes.unit :=
  score ← member h "score";
  _ ← match score with
      | None | Some JNull => mret tt
      | Some _ => ToPrimitive shortest_digits score
      end;
  date ← member h "date";
  _ ← ToPrimitive shortest_digits date;
  url ← member h "url";
  _ ← match url with
      | Some (JString _) => mret tt
      | _ => Throw TypeError
      end;
  strategy ← member h "strategy";
  _ ← String_ shortest_digits strategy;
  _ ← String_ shortest_digits (match score with
                               | None | Some JNull => Some (JString "?")
                               | Some _ => score
                               end);
  mret tt.

Definition renderHistory (st : storage) : completion Datatypes.unit :=
  history ← getHistory st;
  match history with
  | JArray history => _ ← mapM history_item history; mret tt
  | JObject m =>
    length ← member (JObject m) "length";
    match length with
    | Some (JNumber (Fin q)) => if Qeq_bool q 0 then mret tt else Throw TypeError
    | _ => Throw TypeError
    end
  | JString s => if String.eqb s "" then mret tt else Throw TypeError
  | _ => Throw TypeError
  end.

End History.

(** What [fetchPageSpeedData] came to: an error with its message, or the
    response. *)
Inductive fetched : Type :=
  | Rejected (message : string)
  | Resolved (data : PageSpeed.Response).

(** What [showError] is given: a message, or that of an error the engine
    raised. *)
Inductive notice : Type :=
  | Message (text : string)
  | Raised (e : error).

(** The state the handlers share: the session list, the storage, and the
    error on display. *)
Record App : Type := {
  currentResults : list Result;
  localStorage : storage;
  errorMsg : option notice
}.

Definition as_json (v : option number) : json :=
  match v with
  | Some n => JNumber n
  | None => JNull
  end.

(** The record [saveToHistory] is called with. *)
Definition historyEntry (r : Result) : json :=
  JObject [("url", JString (url r)); ("strategy", JString (strategy r));
           ("score", as_json (score (metrics r)));
           ("LCP", as_json (LCP (metrics r))); ("FID", as_json (FID (metrics r)));
           ("CLS", as_json (CLS (metrics r))); ("TTFB", as_json (TTFB (metrics r)));
           ("FCP", as_json (FCP (metrics r))); ("INP", as_json (INP (metrics r)));
           ("date", JString (date r))].

Section Handlers.
Variable shortest_digits : Q -> string.
Variable escapeHTML : string -> string.

(** The submit handler, run when the fetch has come to [response]:
    [url] is the trimmed text of the input, [strategy] the value of the
    select, [now] what [new Date().toISOString()] returns.  Whatever is
    raised after the fetch goes to [showError]. *)
Definition submit (url strategy now : string) (response : fetched) (app : App) : App :=
  if String.eqb url "" then
    {| currentResults := currentResults app; localStorage := localStorage app;
       errorMsg := None |}
  else
    match response with
    | Rejected message =>
      {| currentResults := currentResults app; localStorage := localStorage app;
         errorMsg := Some (Message (if String.eqb message ""
                                    then "Une erreur est survenue." else message)) |}
    | Resolved data =>
      let metrics := extractMetrics data in
      let result := {| url := url; strategy := strategy; metrics := metrics;
                       date := now |} in
      let results := (currentResults app ++ [result])%list in
      match renderResults shortest_digits escapeHTML results with
      | Throw e =>
        {| currentResults := results; localStorage := localStorage app;
           errorMsg := Some (Raised e) |}
      | Normal _ =>
        match saveToHistory (historyEntry result) (localStorage app) with
        | Throw e =>
          {| currentResults := results; localStorage := localStorage app;
             errorMsg := Some (Raised e) |}
        | Normal st =>
          {| currentResults := results; localStorage := st;
             errorMsg := match renderHistory shortest_digits st with
                         | Throw e => Some (Raised e)
                         | Normal _ => None
                         end |}
        end
      end
    end.

(** The other handlers: the remove button of a card ([idx] is what
    [parseInt] returned), and the two clear buttons.  Each ends with a
    call of [renderResults] or [renderHistory], after the change is made;
    nothing catches what these raise, so the state is the same either
    way. *)
Inductive event : Type :=
  | Submit (url strategy now : string) (response : fetched)
  | Remove (idx : number)
  | ClearResults
  | ClearHistory.

Definition handle (e : event) (app : App) : App :=
  match e with
  | Submit url strategy now response => submit url strategy now response app
  | Remove idx =>
    {| currentResults := removeAt (currentResults app) idx;
       localStorage := localStorage app; errorMsg := errorMsg app |}
  | ClearResults =>
    {| currentResults := []; localStorage := localStorage app;
       errorMsg := errorMsg app |}
  | ClearHistory =>
    {| currentResults := currentResults app;
       localStorage := clearHistory (localStorage app); errorMsg := errorMsg app |}
  end.

(** The state after a run of events, the first event first. *)
Definition run (events : list event) (app : App) : App :=
  foldl (fun a e => handle e a) app events.

End Handlers.

(** The page as loaded: no result, no error shown. *)
Definition loaded (st : storage) : App :=
  {| currentResults := []; localStorage := st; errorMsg := None |}.

(** *** What the store holds after a run *)

(** A record as it is read back from the store. *)
Definition stored_record (r : Result) : json := rewritten (historyEntry r).

(** The records a run of events leaves in the history, most recent
    first, starting from [records]: a submission that is resolved for a
    URL that is not empty adds one at the front, within the capacity;
    clearing the history leaves none. *)
Definition recorded (e : event) (records : list Result) : list Result :=
  match e with
  | Submit url strategy now (Resolved data) =>
    if String.eqb url "" then records
    else take MAX_HISTORY
           ({| url := url; strategy := strategy; metrics := extractMetrics data;
               date := now |} :: records)
  | ClearHistory => []
  | _ => records
  end.

Definition history_after (events : list event) (records : list Result) : list Result :=
  foldl (fun rs e => recorded e rs) records events.

(** The text of a metric in the export: blank when it is absent or not
    finite. *)
Definition csv_cell (shortest_digits : Q -> string) (v : option number) : string :=
  match v with
  | Some (Fin q) => Number_toString shortest_digits (Fin q)
  | _ => ""
  end.

(** The fields of a record in the export, [iso] being its date. *)
Definition csv_fields (shortest_digits : Q -> string) (iso : string) (r : Result)
  : list string :=
  [iso; url r; strategy r;
   csv_cell shortest_digits (score (metrics r));
   csv_cell shortest_digits (LCP (metrics r));
   csv_cell shortest_digits (FID (metrics r));
   csv_cell shortest_digits (CLS (metrics r));
   csv_cell shortest_digits (TTFB (metrics r));
   csv_cell shortest_digits (FCP (metrics r));
   csv_cell shortest_digits (INP (metrics r))].

(** * Properties *)

(** ** Rounding

    [binary64], division and multiplication agree with the kernel's IEEE
    arithmetic on the literals and quotients this development meets. *)

Example binary64_tenth : binary64 (1 # 10) = of_float (1 / 10)%float.
Proof. vm_compute. reflexivity. Qed.

Example binary64_lab_value : binary64 (31237 # 10) = of_float (31237 / 10)%float.
Proof. vm_compute. reflexivity. Qed.

Example div_percentile : Number.div (Fin 15) 100 = of_float (15 / 100)%float.
Proof. vm_compute. reflexivity. Qed.

Example div_milliseconds : Number.div (Fin 1005) 1000 = of_float (1005 / 1000)%float.
Proof. vm_compute. reflexivity. Qed.

Example mul_score :
  Number.mul (of_float (95 / 100)%float) 100 = of_float (95 / 100 * 100)%float.
Proof. vm_compute. reflexivity. Qed.

Example div_subnormal :
  Number.div (Fin (pow2 (-1074))) 100 = of_float (Z.ldexp 1 (-1074) / 100)%float.
Proof. vm_compute. reflexivity. Qed.

Example mul_overflow :
  Number.mul (Fin (pow2 1023)) 100 = of_float (Z.ldexp 1 1023 * 100)%float.
Proof. vm_compute. reflexivity. Qed.

(** ** Order of numbers *)

Lemma le_leq (x y : number) : Number.le x y = true <-> (x <= y)%num.
Proof.
  destruct x as [| [|] | a], y as [| [|] | b]; simpl;
    try (split; [discriminate | tauto]); try tauto.
  apply Qle_bool_iff.
Qed.

Lemma le_false_lt (x y : number) :
  x <> NaN -> y <> NaN -> Number.le x y = false <-> (y < x)%num.
Proof.
  intros Hx Hy.
  destruct x as [| [|] | a], y as [| [|] | b]; simpl; try congruence;
    try (split; [discriminate | tauto]); try tauto.
  split.
  - intros H. apply Qnot_le_lt. intros Hle.
    apply Qle_bool_iff in Hle. congruence.
  - intros H. destruct (Qle_bool a b) eqn:E; [| reflexivity].
    apply Qle_bool_iff in E. lra.
Qed.

Lemma lt_not_leq (x y : number) : (y < x)%num -> ~ (x <= y)%num.
Proof.
  destruct x as [| [|] | a], y as [| [|] | b]; simpl; try tauto.
  intros H1 H2. apply (Qlt_not_le _ _ H1 H2).
Qed.

Lemma leq_lt_trans (x y z : number) : (x <= y)%num -> (y < z)%num -> (x < z)%num.
Proof.
  destruct x as [| [|] | a], y as [| [|] | b], z as [| [|] | c]; simpl; try tauto.
  apply Qle_lt_trans.
Qed.

Lemma lt_leq (x y : number) : (x < y)%num -> (x <= y)%num.
Proof.
  destruct x as [| [|] | a], y as [| [|] | b]; simpl; try tauto.
  apply Qlt_le_weak.
Qed.

Lemma leq_refl (x : number) : x <> NaN -> (x <= x)%num.
Proof.
  destruct x as [| [|] | a]; simpl; try tauto; try congruence.
  intros _. apply Qle_refl.
Qed.

(** ** The threshold table *)

(** The six kinds of the table, each with its entry. *)
Lemma THRESHOLDS_recognized (k : string) (t : Threshold) :
  THRESHOLDS !! k = Some t ->
  k ∈ ["LCP"; "FID"; "CLS"; "TTFB"; "FCP"; "INP"] /\
  THRESHOLDS !! k = Some t.
Proof.
  intros H. split; [| exact H].
  unfold THRESHOLDS in H.
  repeat (apply lookup_insert_Some in H as [[<- _] | [_ H]]; [set_solver |]).
  rewrite lookup_empty in H. discriminate.
Qed.

Ltac threshold_cases H :=
  let Hk := fresh "Hk" in
  apply THRESHOLDS_recognized in H as [Hk H];
  repeat (apply elem_of_cons in Hk as [-> | Hk]);
  [ .. | apply elem_of_nil in Hk; destruct Hk ];
  vm_compute in H; injection H as <-.

(** Every kind's boundaries are finite, and [good] lies below [poor]. *)
Lemma THRESHOLDS_ordered (k : string) (t : Threshold) :
  THRESHOLDS !! k = Some t ->
  (good t < poor t)%num /\ good t <> NaN /\ poor t <> NaN.
Proof.
  intros H. threshold_cases H; simpl; repeat split; (reflexivity || discriminate).
Qed.

(** What [THRESHOLDS[k]] evaluates to, for the keys of the table and for
    the names of [Object.prototype]. *)
Lemma THRESHOLDS_at_entry (k : string) (t : Threshold) :
  THRESHOLDS !! k = Some t -> THRESHOLDS_at k = Entry t.
Proof. intros H. unfold THRESHOLDS_at. rewrite H. reflexivity. Qed.

Lemma THRESHOLDS_at_inherited :
  Forall (fun k => THRESHOLDS !! k = None /\ THRESHOLDS_at k = Inherited)
         Object_prototype.
Proof. repeat constructor. Qed.

Lemma THRESHOLDS_at_undefined (k : string) :
  THRESHOLDS_at k = Undefined ->
  THRESHOLDS !! k = None /\ k ∉ Object_prototype.
Proof.
  unfold THRESHOLDS_at. intros H.
  destruct (THRESHOLDS !! k) as [t |]; [discriminate |].
  split; [reflexivity |].
  destruct (existsb (String.eqb k) Object_prototype) eqn:E; [discriminate |].
  intros Hin. apply list_elem_of_In in Hin.
  assert (Ht : existsb (String.eqb k) Object_prototype = true).
  { apply existsb_exists. exists k. split; [exact Hin | apply String.eqb_refl]. }
  congruence.
Qed.

(** ** Rating *)

(** [getRating] on the six kinds of the table and on the names no lookup
    finds: an absent value, or a kind for which [THRESHOLDS[k]] is
    [undefined], is rated [na]; for a kind of the table, every value,
    [NaN] included, is good exactly when it is at most the kind's [good]
    boundary, needs improvement exactly when it is above that and at
    most the [poor] boundary, and poor exactly when it is not at most the
    [poor] boundary, which for a number is to be above it; a value equal
    to a boundary falls on the lower side of it. *)
Lemma getRating_bands :
  (forall k : string, getRating k None = na) /\
  (forall (k : string) (v : option number),
     THRESHOLDS_at k = Undefined -> getRating k v = na) /\
  (forall (k : string) (t : Threshold) (v : number),
     THRESHOLDS !! k = Some t ->
     (getRating k (Some v) = good_rating <-> (v <= good t)%num) /\
     (getRating k (Some v) = needs_improvement <->
        ~ (v <= good t)%num /\ (v <= poor t)%num) /\
     (getRating k (Some v) = poor_rating <-> ~ (v <= poor t)%num) /\
     (v <> NaN -> (getRating k (Some v) = poor_rating <-> (poor t < v)%num)) /\
     getRating k (Some (good t)) = good_rating /\
     getRating k (Some (poor t)) = needs_improvement).
Proof.
  split; [reflexivity |].
  split.
  { intros k [v |] H; simpl; [rewrite H |]; reflexivity. }
  intros k t v Hk.
  destruct (THRESHOLDS_ordered k t Hk) as (Hgp & Hg & Hp).
  assert (Hself : Number.le (good t) (good t) = true)
    by (apply le_leq, leq_refl, Hg).
  assert (Hpp : Number.le (poor t) (poor t) = true)
    by (apply le_leq, leq_refl, Hp).
  assert (Hpg : Number.le (poor t) (good t) = false)
    by (apply le_false_lt; assumption).
  unfold getRating. rewrite (THRESHOLDS_at_entry k t Hk), Hself, Hpg, Hpp.
  destruct (Number.le v (good t)) eqn:Eg.
  - apply le_leq in Eg.
    assert (Hlt : (v < poor t)%num) by (eapply leq_lt_trans; eassumption).
    assert (Hle : (v <= poor t)%num) by apply lt_leq, Hlt.
    repeat split; try discriminate; try tauto.
    + intros Hv. exfalso. apply (lt_not_leq _ _ Hv Hle).
  - assert (Eg' : ~ (v <= good t)%num)
      by (rewrite <- le_leq, Eg; discriminate).
    destruct (Number.le v (poor t)) eqn:Ep.
    + apply le_leq in Ep.
      repeat split; try discriminate; try tauto.
      * intros Hv. exfalso. apply (lt_not_leq _ _ Hv Ep).
    + assert (Ep' : ~ (v <= poor t)%num)
        by (rewrite <- le_leq, Ep; discriminate).
      repeat split; try discriminate; try tauto.
      * intros _. apply le_false_lt in Ep; assumption.
Qed.

(** A kind and a value at which the hypothesis of [getRating_bands]
    holds: LCP at 2500 ms. *)
Lemma getRating_bands_witness :
  getRating "LCP" (Some (Fin 2500)) = good_rating <-> (Fin 2500 <= Fin 2500)%num.
Proof.
  refine (proj1 (proj2 (proj2 getRating_bands) "LCP"
                   {| good := Fin 2500; poor := Fin 4000; unit := "ms";
                      label := "Largest Contentful Paint" |} (Fin 2500) _)).
  vm_compute. reflexivity.
Defined.

(** What the fall-through does with [NaN]: it is no less than either
    boundary, so it is rated poor. *)
Lemma getRating_NaN (k : string) (t : Threshold) :
  THRESHOLDS !! k = Some t -> getRating k (Some NaN) = poor_rating.
Proof.
  intros H. unfold getRating. rewrite (THRESHOLDS_at_entry k t H). reflexivity.
Qed.

(** C1, on the code: an absent value is rated [na] whatever the kind,
    and so is every value for a name the lookup does not find; for a kind
    of the table every value is good exactly when it is at most the
    kind's [good] boundary, needs improvement exactly when it is above
    that and at most the [poor] boundary, and poor exactly when it is not
    at most the [poor] boundary, which for a number is to be above it
    (and [NaN] is rated poor); a value equal to a boundary falls on the
    lower side of it.  But the names a plain object inherits are no kinds
    of the table, and [getRating] does not rate them [na]:
    [THRESHOLDS[k]] finds the inherited member, which passes the [!t]
    test and has no boundaries, so every present value falls through both
    comparisons and is rated poor.  So [getRating('constructor', 5)] is
    ['poor']. *)
Theorem getRating_kinds :
  (forall k : string, getRating k None = na) /\
  (forall (k : string) (v : option number),
     THRESHOLDS_at k = Undefined -> getRating k v = na) /\
  (forall (k : string) (t : Threshold) (v : number),
     THRESHOLDS !! k = Some t ->
     (getRating k (Some v) = good_rating <-> (v <= good t)%num) /\
     (getRating k (Some v) = needs_improvement <->
        ~ (v <= good t)%num /\ (v <= poor t)%num) /\
     (getRating k (Some v) = poor_rating <-> ~ (v <= poor t)%num) /\
     (v <> NaN -> (getRating k (Some v) = poor_rating <-> (poor t < v)%num)) /\
     getRating k (Some (good t)) = good_rating /\
     getRating k (Some (poor t)) = needs_improvement /\
     getRating k (Some NaN) = poor_rating) /\
  (forall v : number,
     Forall (fun k => THRESHOLDS !! k = None /\
                      getRating k (Some v) = poor_rating /\
                      getRating k (Some v) <> na)
            Object_prototype) /\
  getRating "constructor" (Some (Fin 5)) = poor_rating.
Proof.
  destruct getRating_bands as (Habsent & Hundefined & Hbands).
  split; [exact Habsent |].
  split; [exact Hundefined |].
  split.
  { intros k t v Hk.
    destruct (Hbands k t v Hk) as (H1 & H2 & H3 & H4 & H5 & H6).
    repeat (split; [assumption |]). apply (getRating_NaN k t Hk). }
  split; [| reflexivity].
  intros v. eapply Forall_impl; [exact THRESHOLDS_at_inherited |].
  intros k [Hown Hk]. cbv beta.
  assert (H : getRating k (Some v) = poor_rating).
  { unfold getRating. rewrite Hk. destruct v as [| [|] | q]; reflexivity. }
  rewrite H. repeat split; [exact Hown | discriminate].
Qed.

(** C6: [getScoreRating] of an absent score is [na]; a score of 90 or
    more is good, one from 50 up to but excluding 90 needs improvement,
    one below 50 is poor; 90 and 50 themselves fall on the upper side. *)
Theorem getScoreRating_bands :
  getScoreRating None = na /\
  (forall s : number, (Fin 90 <= s)%num -> getScoreRating (Some s) = good_rating) /\
  (forall s : number, (Fin 50 <= s)%num -> (s < Fin 90)%num ->
     getScoreRating (Some s) = needs_improvement) /\
  (forall s : number, (s < Fin 50)%num -> getScoreRating (Some s) = poor_rating) /\
  getScoreRating (Some (Fin 90)) = good_rating /\
  getScoreRating (Some (Fin 89)) = needs_improvement /\
  getScoreRating (Some (Fin 50)) = needs_improvement /\
  getScoreRating (Some (Fin 49)) = poor_rating.
Proof.
  split; [reflexivity |].
  split.
  { intros s H. unfold getScoreRating, Number.ge.
    apply le_leq in H. rewrite H. reflexivity. }
  split.
  { intros s H50 H90. unfold getScoreRating, Number.ge.
    apply le_leq in H50. rewrite H50.
    apply le_false_lt in H90; [rewrite H90; reflexivity | discriminate |].
    destruct s; simpl in *; [tauto | discriminate | discriminate]. }
  split.
  { intros s H. unfold getScoreRating, Number.ge.
    assert (Hs : s <> NaN) by (destruct s; simpl in *; [tauto | discriminate ..]).
    assert (H90 : (s < Fin 90)%num).
    { destruct s as [| [|] | a]; simpl in *; try tauto. lra. }
    apply le_false_lt in H; [| discriminate | assumption].
    apply le_false_lt in H90; [| discriminate | assumption].
    rewrite H90, H. reflexivity. }
  repeat split; reflexivity.
Qed.

(** Scores at which the hypotheses of [getScoreRating_bands] hold. *)
Lemma getScoreRating_bands_witness :
  getScoreRating (Some (Fin 95)) = good_rating /\
  getScoreRating (Some (Fin 70)) = needs_improvement /\
  getScoreRating (Some (Fin 10)) = poor_rating.
Proof.
  pose proof getScoreRating_bands as (_ & Hgood & Hmid & Hpoor & _).
  split; [| split].
  - apply Hgood. simpl. lra.
  - apply Hmid; simpl; lra.
  - apply Hpoor. simpl. lra.
Defined.

(** ** Metric extraction *)

(** [Math.round] of a finite number is the integer nearest to it, the
    upper one of two that are equally near. *)
Lemma Math_round_nearest (q : Q) :
  exists z : Z,
    Math_round (Fin q) = Fin (inject_Z z) /\
    (q - (1 # 2) < inject_Z z)%Q /\ (inject_Z z <= q + (1 # 2))%Q.
Proof.
  exists (Qfloor (q + (1 # 2))). split; [reflexivity |].
  pose proof (Qfloor_le (q + (1 # 2))) as Hle.
  pose proof (Qlt_floor (q + (1 # 2))) as Hlt.
  rewrite inject_Z_plus in Hlt.
  change (inject_Z 1) with 1%Q in Hlt.
  set (z := inject_Z (Qfloor (q + (1 # 2)))) in *.
  split; [| exact Hle]. lra.
Qed.

Lemma extract_sources (data : PageSpeed.Response) (key id : string) :
  cruxVal (or_empty (PageSpeed.loadingExperience data ?. PageSpeed.metrics)) key
    = field_percentile data key /\
  numericAudit (or_empty (PageSpeed.lighthouseResult data ?. PageSpeed.audits)) id
    = match lab_value data id with
      | Some v => Some (Math_round v)
      | None => None
      end.
Proof.
  unfold cruxVal, numericAudit, field_percentile, lab_value.
  destruct data as [[[[crux |]] |] [[[audits |] cats] |]]; simpl;
    rewrite ?lookup_empty; simpl;
    repeat match goal with
           | |- context [?m !! ?k] => destruct (m !! k) as [[[?|]]|]; simpl
           end; split; reflexivity.
Qed.

(** C3: the LCP of [extractMetrics] is the field percentile of largest
    contentful paint, unchanged, when the response has one; failing that
    the lab value of the largest-contentful-paint audit rounded to the
    nearest integer; failing both it is absent.  A field percentile of
    2600 gives 2600, a lab value of 3123.7 gives 3124. *)
Theorem extractMetrics_LCP (data : PageSpeed.Response) :
  (forall p : number,
     field_percentile data "LARGEST_CONTENTFUL_PAINT_MS" = Some p ->
     LCP (extractMetrics data) = Some p) /\
  (forall v : number,
     field_percentile data "LARGEST_CONTENTFUL_PAINT_MS" = None ->
     lab_value data "largest-contentful-paint" = Some v ->
     LCP (extractMetrics data) = Some (Math_round v)) /\
  (forall q : Q,
     field_percentile data "LARGEST_CONTENTFUL_PAINT_MS" = None ->
     lab_value data "largest-contentful-paint" = Some (Fin q) ->
     exists z : Z,
       LCP (extractMetrics data) = Some (Fin (inject_Z z)) /\
       (q - (1 # 2) < inject_Z z)%Q /\ (inject_Z z <= q + (1 # 2))%Q) /\
  (field_percentile data "LARGEST_CONTENTFUL_PAINT_MS" = None ->
   lab_value data "largest-contentful-paint" = None ->
   LCP (extractMetrics data) = None) /\
  LCP (extractMetrics (field_only "LARGEST_CONTENTFUL_PAINT_MS" (Fin 2600)))
    = Some (Fin 2600) /\
  LCP (extractMetrics (lab_only "largest-contentful-paint" (binary64 (31237 # 10))))
    = Some (Fin 3124) /\
  LCP (extractMetrics no_data) = None.
Proof.
  assert (Hlcp : LCP (extractMetrics data)
                 = field_percentile data "LARGEST_CONTENTFUL_PAINT_MS"
                   ?? match lab_value data "largest-contentful-paint" with
                      | Some v => Some (Math_round v)
                      | None => None
                      end).
  { unfold extractMetrics; simpl.
    destruct (extract_sources data "LARGEST_CONTENTFUL_PAINT_MS"
                "largest-contentful-paint") as [-> ->].
    reflexivity. }
  rewrite Hlcp.
  split; [intros p ->; reflexivity |].
  split; [intros v -> ->; reflexivity |].
  split.
  { intros q -> ->.
    destruct (Math_round_nearest q) as (z & Hz & Hb).
    exists z. split; [| exact Hb].
    unfold nullish. rewrite Hz. reflexivity. }
  split; [intros -> ->; reflexivity |].
  split; [vm_compute; reflexivity |].
  split; vm_compute; reflexivity.
Qed.

(** Responses at which the hypotheses of [extractMetrics_LCP] hold. *)
Lemma extractMetrics_LCP_witness :
  LCP (extractMetrics (field_only "LARGEST_CONTENTFUL_PAINT_MS" (Fin 1200)))
    = Some (Fin 1200) /\
  LCP (extractMetrics (lab_only "largest-contentful-paint" (Fin (5 # 2))))
    = Some (Math_round (Fin (5 # 2))) /\
  LCP (extractMetrics no_data) = None.
Proof.
  split; [| split].
  - apply (proj1 (extractMetrics_LCP _)). vm_compute. reflexivity.
  - apply (proj1 (proj2 (extractMetrics_LCP _))); vm_compute; reflexivity.
  - apply (proj1 (proj2 (proj2 (proj2 (extractMetrics_LCP _))))); vm_compute; reflexivity.
Defined.

(** The CLS of [extractMetrics]: the field percentile divided by 100 when
    the response has one; failing that the lab value of the
    cumulative-layout-shift audit, which [numericAudit] rounds to an
    integer; failing both it is absent. *)
Lemma extractMetrics_CLS_chain (data : PageSpeed.Response) :
  CLS (extractMetrics data)
  = match field_percentile data "CUMULATIVE_LAYOUT_SHIFT_SCORE" with
    | Some p => Some (Number.div p 100)
    | None =>
      match lab_value data "cumulative-layout-shift" with
      | Some v => Some (Math_round v)
      | None => None
      end
    end.
Proof.
  unfold extractMetrics; simpl.
  destruct (extract_sources data "CUMULATIVE_LAYOUT_SHIFT_SCORE"
              "cumulative-layout-shift") as [H1 ->].
  unfold cruxVal in H1. rewrite <- H1.
  destruct (_ !! "CUMULATIVE_LAYOUT_SHIFT_SCORE" ?. PageSpeed.percentile); reflexivity.
Qed.

(** C4, on the code: a field percentile of 15 gives the CLS 0.15 and a
    response with neither source gives none, but a lab value of 0.08 does
    not come out as 0.08: [numericAudit] rounds it, to 0. *)
Theorem extractMetrics_CLS_lab_is_rounded :
  CLS (extractMetrics (field_only "CUMULATIVE_LAYOUT_SHIFT_SCORE" (Fin 15)))
    = Some (binary64 (15 # 100)) /\
  CLS (extractMetrics no_data) = None /\
  CLS (extractMetrics (lab_only "cumulative-layout-shift" (binary64 (8 # 100))))
    = Some (Fin 0) /\
  Some (Fin 0) <> Some (binary64 (8 # 100)).
Proof.
  split; [vm_compute; reflexivity |].
  split; [vm_compute; reflexivity |].
  split; [vm_compute; reflexivity |].
  vm_compute. discriminate.
Qed.

(** ** History store *)

(** Writing a value out and reading it back twice changes nothing more. *)
Lemma rewritten_idempotent (v : json) : rewritten (rewritten v) = rewritten v.
Proof.
  revert v. fix IH 1. intros [| b | [| s | q] | s | l | m]; simpl; try reflexivity.
  - f_equal. induction l as [| x l IHl]; simpl; [reflexivity |].
    f_equal; [apply IH | exact IHl].
  - f_equal. induction m as [| [k x] m IHm]; simpl; [reflexivity |].
    f_equal; [f_equal; apply IH | exact IHm].
Qed.

Lemma take_app_take {A} (n : nat) (a b : list A) :
  take n (a ++ take n b) = take n (a ++ b).
Proof.
  rewrite !take_app, take_take.
  f_equal. f_equal. lia.
Qed.

(** [getHistory] never raises. *)
Lemma getHistory_total (st : storage) : exists v, getHistory st = Normal v.
Proof.
  destruct st as [[| v] |]; simpl; eauto.
Qed.

(** After [clearHistory] the history read is empty. *)
Lemma getHistory_after_clear (st : storage) :
  getHistory (clearHistory st) = Normal (JArray []).
Proof. reflexivity. Qed.

(** One append on a store that holds the history [h]. *)
Lemma saveToHistory_spec (entry : json) (st : storage) (h : list json) :
  getHistory st = Normal (JArray h) ->
  saveToHistory entry st
  = Normal (Some (Text (JArray (map rewritten (take MAX_HISTORY (entry :: h)))))).
Proof.
  intros H. unfold saveToHistory. rewrite H.
  cbn -[firstn Nat.ltb rewritten MAX_HISTORY].
  destruct (Nat.ltb_spec MAX_HISTORY (S (length h))) as [Hlt | Hge].
  - reflexivity.
  - rewrite (take_ge (entry :: h)); [reflexivity | simpl; lia].
Qed.

Lemma getHistory_stored (h : list json) :
  getHistory (Some (Text (JArray h))) = Normal (JArray h).
Proof. reflexivity. Qed.

(** A run of appends on a store that holds the history [h]. *)
Lemma appends_spec (entries : list json) (entry : json) (st : storage) (h : list json) :
  getHistory st = Normal (JArray h) ->
  appends (entry :: entries) st
  = Normal (Some (Text (JArray (map rewritten
              (take MAX_HISTORY (rev (entry :: entries) ++ h)))))).
Proof.
  revert entry st h.
  induction entries as [| e2 entries IH]; intros entry st h H.
  - simpl. rewrite (saveToHistory_spec _ _ _ H). reflexivity.
  - change (appends (entry :: e2 :: entries) st)
      with (st' ← saveToHistory entry st; appends (e2 :: entries) st').
    rewrite (saveToHistory_spec _ _ _ H).
    change (appends (e2 :: entries)
              (Some (Text (JArray (map rewritten (take MAX_HISTORY (entry :: h)))))) = 
            Normal (Some (Text (JArray (map rewritten
              (take MAX_HISTORY (rev (entry :: e2 :: entries) ++ h))))))).
    rewrite (IH e2 _ _ (getHistory_stored _)).
    do 4 f_equal.
    change (rev (entry :: e2 :: entries)) with (rev (e2 :: entries) ++ [entry])%list.
    rewrite <- (app_assoc _ [entry] h).
    change ([entry] ++ h)%list with (entry :: h).
    rewrite <- !firstn_map, !map_app, <- firstn_map, map_map.
    rewrite (map_ext _ rewritten rewritten_idempotent).
    apply take_app_take.
Qed.

(** C2: on a store that holds a history, every append puts the new record
    at the front, keeps the first 50 records of the result (so the ones
    dropped are the oldest, at the tail) and writes that list back; after
    any run of appends the stored history is the 50 most recent records,
    most recent first, and its length never exceeds 50. *)
Theorem saveToHistory_bounded (st : storage) (h : list json) :
  getHistory st = Normal (JArray h) ->
  (forall entry : json,
     exists kept evicted : list json,
       (entry :: h = kept ++ evicted)%list /\
       kept = take MAX_HISTORY (entry :: h) /\
       saveToHistory entry st = Normal (Some (Text (JArray (map rewritten kept)))) /\
       (length h < 50 -> evicted = [])%nat /\
       (50 <= length h -> length (map rewritten kept) = 50)%nat /\
       (length (map rewritten kept) <= 50)%nat) /\
  (forall (entry : json) (entries : list json),
     exists (st' : storage) (h' : list json),
       appends (entry :: entries) st = Normal st' /\
       st' = Some (Text (JArray h')) /\
       getHistory st' = Normal (JArray h') /\
       h' = map rewritten (take MAX_HISTORY (rev (entry :: entries) ++ h)) /\
       (length h' <= 50)%nat /\
       (50 <= length h + length (entry :: entries) -> length h' = 50)%nat).
Proof.
  intros H. split.
  - intros entry.
    exists (take MAX_HISTORY (entry :: h)), (drop MAX_HISTORY (entry :: h)).
    split; [symmetry; apply take_drop |].
    split; [reflexivity |].
    split; [apply saveToHistory_spec, H |].
    unfold MAX_HISTORY.
    split; [intros Hlt; apply drop_ge; simpl; lia |].
    rewrite length_map, length_take. cbn [length]. split; lia.
  - intros entry entries.
    eexists _, _.
    split; [apply appends_spec, H |].
    split; [reflexivity |].
    split; [reflexivity |].
    split; [reflexivity |].
    unfold MAX_HISTORY.
    rewrite length_map, length_take, length_app, length_rev. cbn [length]. split; lia.
Qed.

(** A store at capacity, for [saveToHistory_bounded]: it holds records
    50 down to 1, and record 51 is appended.  The store then holds 51
    down to 2, again 50 records with the new one first, and the one
    dropped is record 1, the oldest; two appends drop the two oldest. *)
Lemma saveToHistory_bounded_witness :
  exists kept evicted : list json,
    (sample_record 51 :: full_history = kept ++ evicted)%list /\
    saveToHistory (sample_record 51) (Some (Text (JArray full_history)))
    = Normal (Some (Text (JArray kept))) /\
    kept = (sample_record 51 :: take 49 full_history)%list /\
    evicted = [sample_record 1] /\
    length kept = 50%nat /\
    appends [sample_record 51; sample_record 52] (Some (Text (JArray full_history)))
    = Normal (Some (Text (JArray (sample_record 52 :: sample_record 51
                                   :: take 48 full_history)))).
Proof.
  pose proof (saveToHistory_bounded (Some (Text (JArray full_history))) full_history
                eq_refl) as [Hone Hrun].
  destruct (Hone (sample_record 51)) as (kept & evicted & Happ & Hkept & Hsave & _).
  destruct (Hrun (sample_record 51) [sample_record 52])
    as (st' & h' & Hsaved & Hst' & _ & Hh' & _).
  exists kept, evicted.
  split; [exact Happ |].
  split; [rewrite Hsave, Hkept; reflexivity |].
  split; [rewrite Hkept; reflexivity |].
  split.
  { apply (app_inv_head kept).
    rewrite <- Happ, Hkept. reflexivity. }
  split; [rewrite Hkept; reflexivity |].
  rewrite Hsaved, Hst', Hh'. reflexivity.
Defined.

(** C7, on the code: [getHistory] never raises, and it returns the empty
    list when the key is not set, when the stored text is not JSON, and
    when it is JSON for a falsy value; but a stored text that is JSON for
    anything else is returned as it is, list or not: with the text [42]
    under the key, [getHistory] returns the number 42, on which
    [saveToHistory] and [exportHistoryCSV] raise a [TypeError]. *)
Theorem getHistory_returns_what_parses :
  (forall st : storage, exists v : json, getHistory st = Normal v) /\
  getHistory None = Normal (JArray []) /\
  getHistory (Some Malformed) = Normal (JArray []) /\
  (forall v : json, truthy v = false -> getHistory (Some (Text v)) = Normal (JArray [])) /\
  (forall v : json, truthy v = true -> getHistory (Some (Text v)) = Normal v) /\
  getHistory (Some (Text (JNumber (Fin 42)))) = Normal (JNumber (Fin 42)) /\
  (forall entry : json,
     saveToHistory entry (Some (Text (JNumber (Fin 42)))) = Throw TypeError) /\
  (forall shortest_digits Date_toISOString,
     exportHistoryCSV shortest_digits Date_toISOString (Some (Text (JNumber (Fin 42))))
     = Throw TypeError).
Proof.
  split; [apply getHistory_total |].
  split; [reflexivity |].
  split; [reflexivity |].
  split; [intros v Hv; unfold getHistory; simpl; rewrite Hv; reflexivity |].
  split; [intros v Hv; unfold getHistory; simpl; rewrite Hv; reflexivity |].
  repeat split.
Qed.

(** ** Session result list *)

Lemma splice_at {A} (l : list A) (s : Z) :
  0 <= s <= Z.of_nat (length l) ->
  (take (Z.to_nat s) l
   ++ drop (Z.to_nat (s + Z.min (Z.max 1 0) (Z.of_nat (length l) - s))) l)%list
  = (take (Z.to_nat s) l ++ drop (S (Z.to_nat s)) l)%list.
Proof.
  intros Hs. f_equal.
  destruct (decide (s = Z.of_nat (length l))) as [-> | Hne].
  - rewrite !drop_ge by lia. reflexivity.
  - f_equal. lia.
Qed.

Lemma removeAt_integer {A} (l : list A) (i s : Z) :
  (if i <? 0 then Z.max (Z.of_nat (length l) + i) 0
   else Z.min i (Z.of_nat (length l))) = s ->
  removeAt l (Fin (inject_Z i))
  = (take (Z.to_nat s) l ++ drop (S (Z.to_nat s)) l)%list.
Proof.
  intros Hs. unfold removeAt, splice, ToIntegerOrInfinity.
  simpl Qnum. simpl Qden. rewrite Z.quot_1_r. cbv zeta. rewrite Hs.
  apply splice_at. destruct (Z.ltb_spec i 0); lia.
Qed.

Lemma removeAt_first {A} (l : list A) (x : number) :
  ToIntegerOrInfinity x = Int 0 \/ ToIntegerOrInfinity x = MinusInfinity ->
  removeAt l x = drop 1 l.
Proof.
  intros Hx. unfold removeAt, splice.
  assert (Hs : match ToIntegerOrInfinity x with
               | Int relativeStart =>
                 if relativeStart <? 0
                 then Z.max (Z.of_nat (length l) + relativeStart) 0
                 else Z.min relativeStart (Z.of_nat (length l))
               | PlusInfinity => Z.of_nat (length l)
               | MinusInfinity => 0
               end = 0).
  { destruct Hx as [-> | ->]; [| reflexivity].
    change (0 <? 0) with false. cbv iota. lia. }
  cbv zeta. rewrite Hs. rewrite splice_at by lia. reflexivity.
Qed.

(** What is left when the element at position [n] is taken out: the
    elements before it and the elements after it, in their order. *)
Lemma take_drop_lookup {A} (l : list A) (n j : nat) :
  (take n l ++ drop (S n) l)%list !! j
  = if (j <? n)%nat then l !! j else l !! S j.
Proof.
  destruct (Nat.ltb_spec j n) as [Hlt | Hge].
  - destruct (decide (n <= length l)%nat) as [Hn | Hn].
    + rewrite lookup_app_l by (rewrite length_take; lia).
      apply lookup_take_lt. exact Hlt.
    + rewrite (take_ge l n) by lia. rewrite (drop_ge l (S n)) by lia.
      rewrite app_nil_r. reflexivity.
  - destruct (decide (n <= length l)%nat) as [Hn | Hn].
    + rewrite lookup_app_r by (rewrite length_take; lia).
      rewrite length_take, lookup_drop. f_equal. lia.
    + rewrite (take_ge l n) by lia. rewrite (drop_ge l (S n)) by lia.
      rewrite app_nil_r.
      rewrite !lookup_ge_None_2 by lia. reflexivity.
Qed.

(** C9, as the code has it: an index at or beyond the end of the list
    (or plus infinity) leaves the list as it is; an index that names an
    element takes out that element and keeps the others in their order; a
    negative index counts from the end of the list, so that it takes out
    an element too (the first one when it reaches beyond the start), as
    [NaN] and minus infinity do with the first element. *)
Theorem removeAt_by_position {A} (l : list A) (i : Z) :
  let len := Z.of_nat (length l) in
  (len <= i -> removeAt l (Fin (inject_Z i)) = l) /\
  removeAt l (Inf false) = l /\
  (0 <= i < len ->
     removeAt l (Fin (inject_Z i))
       = (take (Z.to_nat i) l ++ drop (S (Z.to_nat i)) l)%list /\
     length (removeAt l (Fin (inject_Z i))) = (length l - 1)%nat /\
     forall j : nat,
       removeAt l (Fin (inject_Z i)) !! j
       = if (j <? Z.to_nat i)%nat then l !! j else l !! S j) /\
  (- len <= i < 0 ->
     removeAt l (Fin (inject_Z i))
       = (take (Z.to_nat (len + i)) l ++ drop (S (Z.to_nat (len + i))) l)%list) /\
  (i < - len -> removeAt l (Fin (inject_Z i)) = drop 1 l) /\
  removeAt l NaN = drop 1 l /\
  removeAt l (Inf true) = drop 1 l.
Proof.
  intros len. subst len.
  split.
  { intros Hi.
    rewrite (removeAt_integer l i (Z.of_nat (length l)))
      by (destruct (Z.ltb_spec i 0); lia).
    rewrite Nat2Z.id, take_ge, drop_ge by lia. apply app_nil_r. }
  split.
  { unfold removeAt, splice. simpl ToIntegerOrInfinity. cbv zeta.
    rewrite splice_at by lia.
    rewrite Nat2Z.id, take_ge, drop_ge by lia. apply app_nil_r. }
  split.
  { intros Hi.
    assert (Heq : removeAt l (Fin (inject_Z i))
                  = (take (Z.to_nat i) l ++ drop (S (Z.to_nat i)) l)%list).
    { apply removeAt_integer. destruct (Z.ltb_spec i 0); lia. }
    rewrite Heq. split; [reflexivity |].
    split; [| intros j; apply take_drop_lookup].
    rewrite length_app, length_take, length_drop. lia. }
  split.
  { intros Hi. apply removeAt_integer. destruct (Z.ltb_spec i 0); lia. }
  split.
  { intros Hi. rewrite (removeAt_integer l i 0); [reflexivity |].
    destruct (Z.ltb_spec i 0); lia. }
  split; apply removeAt_first; [left | right]; reflexivity.
Qed.

(** A list and an index at which the hypotheses of
    [removeAt_by_position] hold. *)
Lemma removeAt_by_position_witness :
  removeAt ["a"; "b"; "c"] (Fin (inject_Z 5)) = ["a"; "b"; "c"] /\
  removeAt ["a"; "b"; "c"] (Fin (inject_Z 1)) = ["a"; "c"].
Proof.
  split.
  - apply (proj1 (removeAt_by_position ["a"; "b"; "c"] 5)). simpl. lia.
  - apply (proj1 (proj1 (proj2 (proj2 (removeAt_by_position ["a"; "b"; "c"] 1)))
                   ltac:(simpl; lia))).
Defined.

(** C9 as the specification words it fails on the code: -1 names no
    element of a list of three, and [removeAt] takes out the last one;
    [NaN] names none, and [removeAt] takes out the first one. *)
Lemma removeAt_negative_index_removes :
  removeAt ["a"; "b"; "c"] (Fin (inject_Z (-1))) = ["a"; "b"] /\
  removeAt ["a"; "b"; "c"] NaN = ["b"; "c"] /\
  ["a"; "b"] <> ["a"; "b"; "c"].
Proof.
  split; [reflexivity |]. split; [reflexivity | discriminate].
Qed.

(** ** Text of numbers *)

Lemma append_cons (c : ascii) (s t : string) : String c s ++ t = String c (s ++ t).
Proof. reflexivity. Qed.

Lemma append_nil_l (s : string) : "" ++ s = s.
Proof. reflexivity. Qed.

Lemma append_nil_r (s : string) : s ++ "" = s.
Proof.
  induction s as [| c s IH]; [reflexivity |].
  rewrite append_cons, IH. reflexivity.
Qed.

Lemma append_assoc (a b c : string) : (a ++ b) ++ c = a ++ (b ++ c).
Proof.
  induction a as [| x a IH]; [reflexivity |].
  rewrite !append_cons, IH. reflexivity.
Qed.

Lemma length_append (a b : string) :
  String.length (a ++ b) = (String.length a + String.length b)%nat.
Proof.
  induction a as [| x a IH]; [reflexivity |].
  rewrite append_cons. cbn [String.length]. rewrite IH. reflexivity.
Qed.

Lemma substring_all (s : string) : substring 0 (String.length s) s = s.
Proof.
  induction s as [| c s IH]; [reflexivity |].
  cbn [String.length substring]. rewrite IH. reflexivity.
Qed.

Lemma str_take_append (a b : string) : str_take (String.length a) (a ++ b) = a.
Proof.
  unfold str_take. induction a as [| x a IH].
  - rewrite append_nil_l. destruct b; reflexivity.
  - rewrite append_cons. cbn [String.length substring]. rewrite IH. reflexivity.
Qed.

Lemma str_drop_append (a b : string) : str_drop (String.length a) (a ++ b) = b.
Proof.
  unfold str_drop. rewrite length_append.
  replace (String.length a + String.length b - String.length a)%nat
    with (String.length b) by lia.
  induction a as [| x a IH]; [apply substring_all |].
  rewrite append_cons. cbn [String.length substring]. exact IH.
Qed.

Lemma length_zeros (k : nat) : String.length (zeros k) = k.
Proof.
  induction k as [| k IH]; [reflexivity |].
  change (zeros (S k)) with (String "0" (zeros k)).
  cbn [String.length]. rewrite IH. reflexivity.
Qed.

Lemma zeros_S (k : nat) : zeros (S k) = zeros k ++ "0".
Proof.
  induction k as [| k IH]; [reflexivity |].
  change (String "0" (zeros (S k)) = String "0" (zeros k) ++ "0").
  rewrite append_cons. f_equal. exact IH.
Qed.

Lemma digits_from_acc (fuel : nat) (n : Z) (acc : string) :
  digits_from fuel n acc = digits_from fuel n "" ++ acc.
Proof.
  revert n acc. induction fuel as [| fuel IH]; intros n acc; [reflexivity |].
  cbn [digits_from]. destruct (n <? 10); [reflexivity |].
  rewrite (IH _ (String _ acc)), (IH _ (String _ "")), append_assoc. reflexivity.
Qed.

(** Enough fuel is as good as more. *)
Lemma digits_from_fuel (f1 f2 : nat) (n : Z) (acc : string) :
  0 <= n < 10 ^ Z.of_nat (S f1) -> n < 10 ^ Z.of_nat (S f2) ->
  digits_from (S f1) n acc = digits_from (S f2) n acc.
Proof.
  revert f2 n acc. induction f1 as [| f1 IH]; intros f2 n acc H1 H2.
  { change (10 ^ Z.of_nat 1) with 10 in H1.
    cbn [digits_from]. destruct (Z.ltb_spec n 10); [reflexivity | lia]. }
  cbn [digits_from]. destruct (Z.ltb_spec n 10) as [Hlt | Hge]; [reflexivity |].
  rewrite Nat2Z.inj_succ, Z.pow_succ_r in H1 by lia.
  rewrite Nat2Z.inj_succ, Z.pow_succ_r in H2 by lia.
  destruct f2 as [| f2].
  { change (10 ^ Z.of_nat 0) with 1 in H2. lia. }
  apply IH.
  - split; [apply Z.div_pos; lia |].
    apply Z.div_lt_upper_bound; lia.
  - apply Z.div_lt_upper_bound; lia.
Qed.

Lemma pow2_le_pow10 (k : Z) : 0 <= k -> 2 ^ k <= 10 ^ k.
Proof. intros Hk. apply Z.pow_le_mono_l. lia. Qed.

Lemma decimal_small (n : Z) : 0 <= n < 10 -> decimal n = String (digit n) "".
Proof.
  intros Hn. unfold decimal. cbn [digits_from].
  rewrite Z.mod_small by lia.
  destruct (Z.ltb_spec n 10); [reflexivity | lia].
Qed.

Lemma decimal_step (n : Z) :
  10 <= n -> decimal n = decimal (n / 10) ++ String (digit (n mod 10)) "".
Proof.
  intros Hn. unfold decimal. cbn [digits_from].
  destruct (Z.ltb_spec n 10) as [Hlt | _]; [lia |].
  rewrite digits_from_acc. f_equal.
  pose proof (Z.log2_spec n ltac:(lia)) as [Hlo Hhi].
  assert (Hlog : 3 <= Z.log2 n) by (apply Z.log2_le_pow2; simpl; lia).
  assert (Hm : 1 <= n / 10) by (apply Z.div_le_lower_bound; lia).
  pose proof (Z.log2_spec (n / 10) ltac:(lia)) as [Hlo' Hhi'].
  pose proof (Z.log2_nonneg (n / 10)) as Hlog'.
  destruct (Z.to_nat (Z.log2 n)) as [| L] eqn:EL; [lia |].
  apply digits_from_fuel.
  - split; [lia |].
    rewrite <- EL, Z2Nat.id by lia.
    apply Z.lt_le_trans with (2 ^ Z.log2 n); [| apply pow2_le_pow10; lia].
    apply Z.div_lt_upper_bound; [lia |].
    rewrite Z.pow_succ_r in Hhi by lia. lia.
  - rewrite Nat2Z.inj_succ, Z2Nat.id by lia.
    apply Z.lt_le_trans with (2 ^ Z.succ (Z.log2 (n / 10))); [exact Hhi' |].
    apply pow2_le_pow10. lia.
Qed.

Lemma length_padded (f : nat) (r : Z) : String.length (padded f r) = f.
Proof.
  revert r. induction f as [| f IH]; intros r; [reflexivity |].
  cbn [padded]. rewrite length_append, IH. cbn [String.length]. lia.
Qed.

Lemma padded_zero (f : nat) : padded f 0 = zeros f.
Proof.
  induction f as [| f IH]; [reflexivity |].
  cbn [padded]. change (0 / 10) with 0. rewrite IH, zeros_S. reflexivity.
Qed.

(** A number of at least [f + 1] digits: its numeral is the numeral of
    its quotient by [10^f], then its last [f] digits. *)
Lemma decimal_split (f : nat) (n : Z) :
  10 ^ Z.of_nat f <= n ->
  decimal n = decimal (n / 10 ^ Z.of_nat f) ++ padded f (n mod 10 ^ Z.of_nat f).
Proof.
  revert n. induction f as [| f IH]; intros n Hn.
  { change (10 ^ Z.of_nat 0) with 1. rewrite Z.div_1_r. cbn [padded].
    rewrite append_nil_r. reflexivity. }
  rewrite Nat2Z.inj_succ, Z.pow_succ_r in * by lia.
  assert (Hp : 0 < 10 ^ Z.of_nat f) by (apply Z.pow_pos_nonneg; lia).
  rewrite decimal_step by lia.
  rewrite (IH (n / 10)) by (apply Z.div_le_lower_bound; lia).
  cbn [padded]. rewrite append_assoc.
  rewrite Z.div_div by lia.
  f_equal. f_equal.
  - f_equal. rewrite Z.rem_mul_r by lia.
    rewrite Z.mul_comm, Z.div_add by lia.
    rewrite (Z.div_small (n mod 10) 10) by (apply Z.mod_pos_bound; lia).
    reflexivity.
  - f_equal. f_equal. rewrite Z.rem_mul_r by lia.
    rewrite Z.mul_comm, Z.mod_add by lia. symmetry. apply Z.mod_mod. lia.
Qed.

(** A number of at most [f] digits: zeros in front of its numeral make
    it [f] digits wide. *)
Lemma decimal_pad (f : nat) (n : Z) :
  0 <= n < 10 ^ Z.of_nat (S f) ->
  (String.length (decimal n) <= S f)%nat /\
  zeros (S f - String.length (decimal n)) ++ decimal n = padded (S f) n.
Proof.
  revert n. induction f as [| f IH]; intros n Hn.
  { change (10 ^ Z.of_nat 1) with 10 in Hn.
    rewrite decimal_small by lia. cbn [String.length padded].
    split; [lia |]. rewrite Z.mod_small by lia. reflexivity. }
  rewrite Nat2Z.inj_succ, Z.pow_succ_r in Hn by lia.
  destruct (Z.ltb_spec n 10) as [Hlt | Hge].
  - rewrite decimal_small by lia. cbn [String.length].
    split; [lia |].
    change (padded (S (S f)) n)
      with (padded (S f) (n / 10) ++ String (digit (n mod 10)) "").
    rewrite Z.div_small, Z.mod_small, padded_zero by lia.
    replace (S (S f) - 1)%nat with (S f) by lia. reflexivity.
  - destruct (IH (n / 10)) as [Hlen Hpad].
    { split; [apply Z.div_pos; lia | apply Z.div_lt_upper_bound; lia]. }
    rewrite decimal_step by lia. rewrite length_append. cbn [String.length].
    split; [lia |].
    change (padded (S (S f)) n)
      with (padded (S f) (n / 10) ++ String (digit (n mod 10)) "").
    rewrite <- Hpad, append_assoc. f_equal. f_equal. lia.
Qed.

Lemma length_decimal_pos (n : Z) : 0 <= n -> (1 <= String.length (decimal n))%nat.
Proof.
  intros Hn. destruct (Z.ltb_spec n 10).
  - rewrite decimal_small by lia. cbn [String.length]. lia.
  - rewrite decimal_step by lia. rewrite length_append. cbn [String.length]. lia.
Qed.

(** The digits [toFixed] puts around the point. *)
Lemma point_split (f : nat) (n : Z) :
  0 <= n ->
  let m := decimal n in
  let k := String.length m in
  let m' := if (k <=? S f)%nat then zeros (S f + 1 - k) ++ m else m in
  let k' := String.length m' in
  str_take (k' - S f) m' ++ "." ++ str_drop (k' - S f) m' = fixed_point (S f) n.
Proof.
  intros Hn m k m' k'. unfold fixed_point.
  assert (Hp : 0 < 10 ^ Z.of_nat (S f)) by (apply Z.pow_pos_nonneg; lia).
  destruct (Z.ltb_spec n (10 ^ Z.of_nat (S f))) as [Hlt | Hge].
  - destruct (decimal_pad f n ltac:(lia)) as [Hlen Hpad].
    fold m in Hlen, Hpad. fold k in Hlen, Hpad.
    assert (Hm' : m' = "0" ++ padded (S f) n).
    { subst m'. destruct (Nat.leb_spec k (S f)); [| lia].
      replace (S f + 1 - k)%nat with (S (S f - k)) by lia.
      change (zeros (S (S f - k))) with (String "0" (zeros (S f - k))).
      rewrite append_cons, Hpad. reflexivity. }
    assert (Hk' : (k' - S f)%nat = String.length "0").
    { subst k'. rewrite Hm', length_append, length_padded. cbn [String.length]. lia. }
    rewrite Hk', Hm', str_take_append, str_drop_append.
    rewrite Z.div_small, Z.mod_small by lia. reflexivity.
  - pose proof (decimal_split (S f) n Hge) as Hsplit. fold m in Hsplit.
    assert (Hq : 0 <= n / 10 ^ Z.of_nat (S f)) by (apply Z.div_pos; lia).
    pose proof (length_decimal_pos _ Hq) as Hlen.
    assert (Hk : k = (String.length (decimal (n / 10 ^ Z.of_nat (S f))) + S f)%nat).
    { subst k. rewrite Hsplit, length_append, length_padded. reflexivity. }
    assert (Hm' : m' = m).
    { subst m'. destruct (Nat.leb_spec k (S f)); [lia | reflexivity]. }
    assert (Hk' : (k' - S f)%nat = String.length (decimal (n / 10 ^ Z.of_nat (S f)))).
    { subst k'. rewrite Hm'. fold k. lia. }
    rewrite Hk', Hm', Hsplit, str_take_append, str_drop_append. reflexivity.
Qed.

(** [toFixed] with at least one fraction digit, on a finite number below
    10^21 in size: a sign, the integer part, a point, and exactly that
    many digits, together the nearest multiple of [10^-f] (the larger of
    two equally near). *)
Lemma toFixed_fixed_point (shortest_digits : Q -> string) (q : Q) (f : nat) :
  (Qabs q < inject_Z (10 ^ 21))%Q ->
  toFixed shortest_digits (Fin q) (S f)
  = (if Qnum q <? 0 then "-" else "")
    ++ fixed_point (S f) (Qfloor (Qabs q * inject_Z (10 ^ Z.of_nat (S f)) + (1 # 2))).
Proof.
  intros Hq. unfold toFixed.
  destruct (Qle_bool (inject_Z (10 ^ 21)) (Qabs q)) eqn:E.
  { apply Qle_bool_iff in E. exfalso. apply (Qlt_not_le _ _ Hq E). }
  f_equal. apply point_split.
  assert (Hp : 0 < 10 ^ Z.of_nat (S f)) by (apply Z.pow_pos_nonneg; lia).
  change 0 with (Qfloor 0). apply Qfloor_resp_le.
  pose proof (Qabs_nonneg q) as Ha.
  assert (Hp' : (0 < inject_Z (10 ^ Z.of_nat (S f)))%Q).
  { change 0%Q with (inject_Z 0). rewrite <- Zlt_Qlt. exact Hp. }
  pose proof (Qmult_le_0_compat _ _ Ha (Qlt_le_weak _ _ Hp')) as Hm.
  lra.
Qed.

Lemma pow2_pos (e : Z) : (0 < pow2 e)%Q.
Proof.
  unfold pow2. destruct (Z.leb_spec 0 e) as [He | He].
  - change 0%Q with (inject_Z 0). rewrite <- Zlt_Qlt. apply Z.pow_pos_nonneg; lia.
  - apply Qinv_lt_0_compat.
    change 0%Q with (inject_Z 0). rewrite <- Zlt_Qlt. apply Z.pow_pos_nonneg; lia.
Qed.

Lemma round_half_even_nonneg (x : Q) : (0 <= x)%Q -> 0 <= round_half_even x.
Proof.
  intros Hx. unfold round_half_even.
  assert (Hf : 0 <= Qfloor x) by (change 0 with (Qfloor 0); apply Qfloor_resp_le, Hx).
  destruct (_ ?= _)%Q; [destruct (Z.even _) | |]; lia.
Qed.

(** Rounding to binary64 keeps a number that is not negative so. *)
Lemma binary64_nonneg (q x : Q) : (0 <= q)%Q -> binary64 q = Fin x -> (0 <= x)%Q.
Proof.
  intros Hq. unfold binary64.
  destruct (Qnum q) as [| n | n] eqn:En.
  - intros [= <-]. apply Qle_refl.
  - cbv zeta. destruct (Qle_bool _ _); [discriminate |].
    change (Z.pos n <? 0) with false. cbv iota. intros [= <-].
    rewrite Qred_correct.
    apply Qmult_le_0_compat; [| apply Qlt_le_weak, pow2_pos].
    change 0%Q with (inject_Z 0). rewrite <- Zle_Qle.
    apply round_half_even_nonneg.
    apply Qle_shift_div_l; [apply pow2_pos |].
    rewrite Qmult_0_l. apply Qabs_nonneg.
  - exfalso. destruct q as [qn qd]. simpl in En. subst qn.
    unfold Qle in Hq. simpl in Hq. lia.
Qed.

Lemma Number_toString_integer (shortest_digits : Q -> string) (z : Z) :
  Z.abs z <= 2 ^ 53 ->
  Number_toString shortest_digits (Fin (inject_Z z)) = signed_decimal z.
Proof.
  intros Hz. unfold Number_toString, signed_decimal.
  rewrite Qfloor_Z.
  assert (E1 : Qeq_bool (inject_Z z) (inject_Z z) = true)
    by (apply Qeq_bool_iff; reflexivity).
  assert (E2 : Qle_bool (Qabs (inject_Z z)) (inject_Z (2 ^ 53)) = true).
  { apply Qle_bool_iff.
    change (Qabs (inject_Z z)) with (inject_Z (Z.abs z)).
    rewrite <- Zle_Qle. exact Hz. }
  rewrite E1, E2. reflexivity.
Qed.

(** ** Formatting *)

Lemma time_unit_kind (k : string) (t : Threshold) :
  THRESHOLDS !! k = Some t -> unit t = "ms" ->
  String.eqb k "CLS" = false /\ String.eqb (unit t) "ms" = true.
Proof.
  intros H Hu. threshold_cases H; simpl in Hu; try discriminate;
    split; reflexivity.
Qed.

(** C5, as the code has it: a time-unit value of 1000 or more is rendered
    as its quotient by 1000 with two fraction digits and the suffix [" s"]
    (the digits are the two-decimal numeral as long as the quotient is
    below 10^21); every other present time-unit value is rendered as its
    rounding to an integer with the suffix [" ms"] (the integer's own
    numeral from -2^53 up); CLS is rendered with three fraction digits and
    no suffix.  So 2500 gives "2.50 s" and the CLS 0.1234 gives "0.123",
    an absent value gives "N/A", and 1800, being over 1000, gives
    "1.80 s". *)
Theorem formatValue_rules (shortest_digits : Q -> string) (k : string) (t : Threshold) :
  THRESHOLDS !! k = Some t -> unit t = "ms" ->
  (forall v : number, (Fin 1000 <= v)%num ->
     formatValue shortest_digits k (Some v)
     = toFixed shortest_digits (Number.div v 1000) 2 ++ " s") /\
  (forall q x : Q, (1000 <= q)%Q ->
     Number.div (Fin q) 1000 = Fin x -> (x < inject_Z (10 ^ 21))%Q ->
     formatValue shortest_digits k (Some (Fin q))
     = fixed_point 2 (Qfloor (x * 100 + (1 # 2))) ++ " s") /\
  (forall v : number, ~ (Fin 1000 <= v)%num ->
     formatValue shortest_digits k (Some v)
     = Number_toString shortest_digits (Math_round v) ++ " ms") /\
  (forall q : Q, (q < 1000)%Q -> (- inject_Z (2 ^ 53) <= q)%Q ->
     formatValue shortest_digits k (Some (Fin q))
     = signed_decimal (Qfloor (q + (1 # 2))) ++ " ms") /\
  (forall q : Q, (Qabs q < inject_Z (10 ^ 21))%Q ->
     formatValue shortest_digits "CLS" (Some (Fin q))
     = (if Qnum q <? 0 then "-" else "")
       ++ fixed_point 3 (Qfloor (Qabs q * 1000 + (1 # 2)))) /\
  formatValue shortest_digits "LCP" (Some (Fin 1800)) = "1.80 s" /\
  formatValue shortest_digits "LCP" (Some (Fin 2500)) = "2.50 s" /\
  formatValue shortest_digits "CLS" (Some (binary64 (1234 # 10000))) = "0.123" /\
  formatValue shortest_digits "LCP" None = "N/A".
Proof.
  intros Hk Hu.
  destruct (time_unit_kind k t Hk Hu) as [Hcls Hms].
  assert (Hsec : forall v : number, (Fin 1000 <= v)%num ->
            formatValue shortest_digits k (Some v)
            = toFixed shortest_digits (Number.div v 1000) 2 ++ " s").
  { intros v Hv. unfold formatValue. rewrite (THRESHOLDS_at_entry k t Hk), Hcls, Hms.
    unfold Number.ge. apply le_leq in Hv. rewrite Hv. reflexivity. }
  assert (Hmil : forall v : number, ~ (Fin 1000 <= v)%num ->
            formatValue shortest_digits k (Some v)
            = Number_toString shortest_digits (Math_round v) ++ " ms").
  { intros v Hv. unfold formatValue. rewrite (THRESHOLDS_at_entry k t Hk), Hcls, Hms.
    unfold Number.ge. destruct (Number.le (Fin 1000) v) eqn:E.
    - apply le_leq in E. contradiction.
    - rewrite Hu. reflexivity. }
  split; [exact Hsec |].
  split.
  { intros q x Hq Hdiv Hx. rewrite (Hsec (Fin q)) by exact Hq. rewrite Hdiv.
    assert (H0 : (0 <= x)%Q).
    { apply (binary64_nonneg (q / 1000)); [| exact Hdiv].
      apply Qle_shift_div_l; lra. }
    rewrite toFixed_fixed_point by (rewrite Qabs_pos; assumption).
    assert (Hsign : (Qnum x <? 0) = false).
    { destruct x as [n d]. unfold Qle in H0. simpl in *.
      destruct (Z.ltb_spec n 0); [lia | reflexivity]. }
    rewrite Hsign, append_nil_l. do 2 f_equal.
    apply Qfloor_comp. rewrite Qabs_pos by exact H0. reflexivity. }
  split; [exact Hmil |].
  split.
  { intros q Hlt Hge. rewrite (Hmil (Fin q)) by (simpl; lra).
    cbn [Math_round]. rewrite Number_toString_integer; [reflexivity |].
    pose proof (Qfloor_le (q + (1 # 2))) as Hle.
    pose proof (Qlt_floor (q + (1 # 2))) as Hfl.
    rewrite inject_Z_plus in Hfl. change (inject_Z 1) with 1%Q in Hfl.
    set (z := Qfloor (q + (1 # 2))) in *.
    assert (Hup : (inject_Z z < inject_Z 1001)%Q)
      by (change (inject_Z 1001) with 1001%Q; lra).
    assert (Hlo : (inject_Z (- 2 ^ 53 - 1) < inject_Z z)%Q).
    { change (inject_Z (- 2 ^ 53 - 1)) with (- inject_Z (2 ^ 53) - 1)%Q. lra. }
    rewrite <- Zlt_Qlt in Hup. rewrite <- Zlt_Qlt in Hlo. lia. }
  split.
  { intros q Hq. unfold formatValue.
    change (THRESHOLDS_at "CLS") with (Entry {| good := binary64 (1 # 10);
      poor := binary64 (25 # 100); unit := ""; label := "Cumulative Layout Shift" |}).
    cbv iota beta. change (String.eqb "CLS" "CLS") with true. cbv iota.
    apply toFixed_fixed_point. exact Hq. }
  repeat split; vm_compute; reflexivity.
Qed.

(** A kind and values at which the hypotheses of [formatValue_rules]
    hold: LCP, at 999 and at 1005 ms. *)
Lemma formatValue_rules_witness :
  formatValue (fun _ => "") "LCP" (Some (Fin 999)) = signed_decimal 999 ++ " ms" /\
  formatValue (fun _ => "") "LCP" (Some (Fin 1005))
  = toFixed (fun _ => "") (Number.div (Fin 1005) 1000) 2 ++ " s".
Proof.
  pose proof (formatValue_rules (fun _ => "") "LCP"
                {| good := Fin 2500; poor := Fin 4000; unit := "ms";
                   label := "Largest Contentful Paint" |}
                ltac:(vm_compute; reflexivity) eq_refl)
    as (Hsec & _ & _ & Hmil & _).
  split.
  - apply (Hmil 999%Q); [reflexivity | discriminate].
  - apply Hsec. discriminate.
Defined.

(** C5 as the specification words it fails on the code: 1800 is not
    below 1000, so it is rendered in seconds, not as "1800 ms"; and the
    two-decimal form is not that of every value of 1000 or more: plus
    infinity is one. *)
Lemma formatValue_1800_in_seconds :
  (forall shortest_digits : Q -> string,
     formatValue shortest_digits "LCP" (Some (Fin 1800)) = "1.80 s") /\
  "1.80 s" <> "1800 ms" /\
  (forall shortest_digits : Q -> string,
     formatValue shortest_digits "LCP" (Some (Inf false)) = "Infinity s").
Proof.
  split; [intros sd; vm_compute; reflexivity |].
  split; [discriminate | intros sd; vm_compute; reflexivity].
Qed.

(** What [formatValue] does with a present value for a name inherited
    from [Object.prototype]: the lookup finds the inherited member, whose
    [unit] is [undefined], and the value is rounded and followed by that
    word. *)
Lemma formatValue_inherited_kind (shortest_digits : Q -> string) (v : number) :
  Forall (fun k => formatValue shortest_digits k (Some v)
                   = Number_toString shortest_digits (Math_round v) ++ " undefined")
         Object_prototype.
Proof.
  eapply Forall_impl; [exact THRESHOLDS_at_inherited |].
  intros k [_ Hk]. cbv beta. unfold formatValue. rewrite Hk.
  destruct (String.eqb_spec k "CLS") as [-> | _]; [discriminate Hk | reflexivity].
Qed.

(** C10: the test for an absent value comes first: an absent value is
    rendered "N/A" whatever the kind, be it in the table, a name the
    lookup finds by inheritance, or a name it does not find, and never as
    the raw string of the absent value; the raw string of the value is
    returned only for a present value, and that for every kind for which
    [THRESHOLDS[k]] is [undefined]. *)
Theorem formatValue_absent_first (shortest_digits : Q -> string) :
  (forall k : string, formatValue shortest_digits k None = "N/A") /\
  (forall k : string,
     formatValue shortest_digits k None <> "null" /\
     formatValue shortest_digits k None <> "undefined") /\
  (forall (k : string) (v : number),
     THRESHOLDS_at k = Undefined ->
     formatValue shortest_digits k (Some v) = Number_toString shortest_digits v) /\
  formatValue shortest_digits "XYZ" None = "N/A" /\
  formatValue shortest_digits "XYZ" (Some (Fin 3)) = "3" /\
  formatValue shortest_digits "constructor" None = "N/A".
Proof.
  split; [reflexivity |].
  split; [intros k; split; discriminate |].
  split; [intros k v Hk; unfold formatValue; rewrite Hk; reflexivity |].
  repeat split; vm_compute; reflexivity.
Qed.

(** A kind for which the lookup finds nothing, for
    [formatValue_absent_first]. *)
Lemma formatValue_absent_first_witness :
  formatValue (fun _ => "") "XYZ" (Some NaN) = Number_toString (fun _ => "") NaN.
Proof.
  apply (proj1 (proj2 (proj2 (formatValue_absent_first (fun _ => ""))))).
  vm_compute. reflexivity.
Defined.

(** ** Export *)

Lemma read_quoted (f rest acc : string) (rec : list string) (recs : list (list string)) :
  read_csv (double_quotes f ++ String dquote rest) Quoted acc rec recs
  = read_csv rest QuoteSeen (acc ++ f) rec recs.
Proof.
  revert acc. induction f as [| c f IH]; intros acc.
  - rewrite append_nil_r. reflexivity.
  - cbn [double_quotes]. destruct (Ascii.eqb c dquote) eqn:E.
    + apply Ascii.eqb_eq in E. subst c.
      rewrite !append_cons. cbn [read_csv].
      change (Ascii.eqb dquote dquote) with true. cbv iota.
      rewrite IH. unfold snoc. rewrite append_assoc. reflexivity.
    + rewrite append_cons. cbn [read_csv]. rewrite E.
      rewrite IH. unfold snoc. rewrite append_assoc. reflexivity.
Qed.

Lemma read_field (f rest : string) (rec : list string) (recs : list (list string)) :
  read_csv (quote_field f ++ rest) FieldStart "" rec recs
  = read_csv rest QuoteSeen f rec recs.
Proof.
  unfold quote_field. rewrite append_cons, append_assoc, append_cons, append_nil_l.
  cbn [read_csv]. change (Ascii.eqb dquote dquote) with true. cbv iota.
  apply read_quoted.
Qed.

Lemma csv_line_cons (f g : string) (r : list string) :
  csv_line (f :: g :: r) = quote_field f ++ String comma (csv_line (g :: r)).
Proof. reflexivity. Qed.

Lemma read_line_more (r : list string) (f rest : string) (rec : list string)
    (recs : list (list string)) :
  read_csv (csv_line (f :: r) ++ String newline rest) FieldStart "" rec recs
  = read_csv rest FieldStart "" [] (recs ++ [rec ++ f :: r])%list.
Proof.
  revert f rec. induction r as [| g r IH]; intros f rec.
  - change (csv_line [f]) with (quote_field f). rewrite read_field. reflexivity.
  - rewrite csv_line_cons, append_assoc, read_field, append_cons.
    cbn [read_csv].
    change (Ascii.eqb comma dquote) with false.
    change (Ascii.eqb comma comma) with true. cbv iota.
    rewrite IH, <- app_assoc. reflexivity.
Qed.

Lemma read_line_end (r : list string) (f : string) (rec : list string)
    (recs : list (list string)) :
  read_csv (csv_line (f :: r)) FieldStart "" rec recs
  = Some (recs ++ [rec ++ f :: r])%list.
Proof.
  revert f rec. induction r as [| g r IH]; intros f rec.
  - change (csv_line [f]) with (quote_field f).
    rewrite <- (append_nil_r (quote_field f)), read_field. reflexivity.
  - rewrite csv_line_cons, read_field.
    cbn [read_csv].
    change (Ascii.eqb comma dquote) with false.
    change (Ascii.eqb comma comma) with true. cbv iota.
    rewrite IH, <- app_assoc. reflexivity.
Qed.

(** Reading back a text of quoted fields gives the fields. *)
Lemma read_csv_text (records : list (list string)) (r : list string)
    (recs : list (list string)) :
  Forall (fun fields => fields <> []) (r :: records) ->
  read_csv (csv_text (r :: records)) FieldStart "" [] recs
  = Some (recs ++ r :: records)%list.
Proof.
  revert r recs. induction records as [| r2 records IH]; intros r recs Hne.
  - apply Forall_cons in Hne as [Hr _].
    destruct r as [| f r]; [congruence |].
    change (csv_text [f :: r]) with (csv_line (f :: r)).
    apply read_line_end.
  - apply Forall_cons in Hne as [Hr Hne].
    destruct r as [| f r]; [congruence |].
    change (csv_text ((f :: r) :: r2 :: records))
      with (csv_line (f :: r) ++ String newline (csv_text (r2 :: records))).
    rewrite read_line_more, IH by exact Hne.
    rewrite <- app_assoc. reflexivity.
Qed.

Lemma parse_csv_text (records : list (list string)) :
  records <> [] -> Forall (fun fields => fields <> []) records ->
  parse_csv (csv_text records) = Some records.
Proof.
  intros Hne Hall. destruct records as [| r records]; [congruence |].
  apply (read_csv_text records r [] Hall).
Qed.

(** *** Lists of fallible steps *)

Lemma mapM_Normal {A B} (f : A -> completion B) (g : A -> B) (l : list A) :
  Forall (fun x => f x = Normal (g x)) l -> mapM f l = Normal (map g l).
Proof.
  induction 1 as [| x l Hx _ IH]; [reflexivity |].
  cbn [mapM map]. rewrite Hx. cbn [mbind completion_bind]. rewrite IH. reflexivity.
Qed.

Lemma mapM_cons_Normal {A B} (f : A -> completion B) (x : A) (l : list A)
    (ys : list B) :
  mapM f (x :: l) = Normal ys ->
  exists (y : B) (ys' : list B),
    f x = Normal y /\ mapM f l = Normal ys' /\ ys = y :: ys'.
Proof.
  cbn [mapM]. destruct (f x) as [y | e]; cbn [mbind completion_bind]; [| discriminate].
  destruct (mapM f l) as [ys' | e]; cbn [mbind completion_bind]; [| discriminate].
  intros H. injection H as <-. eauto.
Qed.

Lemma mapM_length {A B} (f : A -> completion B) (l : list A) (ys : list B) :
  mapM f l = Normal ys -> length ys = length l.
Proof.
  revert ys. induction l as [| x l IH]; intros ys H.
  - injection H as <-. reflexivity.
  - apply mapM_cons_Normal in H as (y & ys' & _ & Hl & ->).
    cbn [length]. rewrite (IH ys' Hl). reflexivity.
Qed.

Lemma mapM_ext {A B} (f g : A -> completion B) (l : list A) :
  (forall x, f x = g x) -> mapM f l = mapM g l.
Proof.
  intros H. induction l as [| x l IH]; [reflexivity |].
  cbn [mapM]. rewrite H, IH. reflexivity.
Qed.

Lemma mapM_map {A B C} (f : B -> completion C) (g : A -> B) (l : list A) :
  mapM f (map g l) = mapM (fun x => f (g x)) l.
Proof.
  induction l as [| x l IH]; [reflexivity |].
  cbn [mapM map]. rewrite IH. reflexivity.
Qed.

(** *** The encoder *)

Lemma quoted_text (shortest_digits : Q -> string) (v : option json) (text : string) :
  String_ shortest_digits v = Normal text ->
  quoted shortest_digits v = Normal (quote_field text).
Proof. intros H. unfold quoted. rewrite H. reflexivity. Qed.

Lemma quoted_row (shortest_digits : Q -> string) (r : list (option json))
    (texts : list string) :
  mapM (String_ shortest_digits) r = Normal texts ->
  mapM (quoted shortest_digits) r = Normal (map quote_field texts).
Proof.
  revert texts. induction r as [| v r IH]; intros texts H.
  - injection H as <-. reflexivity.
  - apply mapM_cons_Normal in H as (s & texts' & Hv & Hr & ->).
    cbn [mapM map]. rewrite (quoted_text _ _ _ Hv).
    cbn [mbind completion_bind mret completion_ret].
    rewrite (IH texts' Hr). reflexivity.
Qed.

(** The text of a table whose cells can all be converted is that of
    the table of their texts. *)
Lemma csv_of_text (shortest_digits : Q -> string) (table : list (list (option json)))
    (texts : list (list string)) :
  mapM (mapM (String_ shortest_digits)) table = Normal texts ->
  csv_of shortest_digits table = Normal (csv_text texts).
Proof.
  intros H. unfold csv_of, csv_text.
  assert (Hlines : mapM (fun r => cells ← mapM (quoted shortest_digits) r;
                                  mret (join "," cells)) table
                   = Normal (map csv_line texts)).
  { revert texts H. induction table as [| r table IH]; intros texts H.
    - injection H as <-. reflexivity.
    - apply mapM_cons_Normal in H as (t & texts' & Hr & Htable & ->).
      cbn [mapM map]. rewrite (quoted_row _ _ _ Hr).
      cbn [mbind completion_bind mret completion_ret].
      rewrite (IH texts' Htable). reflexivity. }
  rewrite Hlines. reflexivity.
Qed.

Lemma headers_text (shortest_digits : Q -> string) :
  mapM (String_ shortest_digits) headers = Normal header_names.
Proof. reflexivity. Qed.

(** Every member of a value other than [null] can be read. *)
Lemma member_get (h : json) (key : string) (v : option json) :
  member h key = Normal v ->
  exists get : string -> option json, forall k : string, member h k = Normal (get k).
Proof.
  destruct h; try discriminate; intros _;
    try (exists (fun _ => None); reflexivity).
  eexists (fun k => _). intros k. reflexivity.
Qed.

(** The row the code makes of a record holds, cell by cell, what the
    columns of the export are to hold. *)
Lemma row_exported (shortest_digits : Q -> string)
    (Date_toISOString : option json -> option string)
    (h : json) (fields : list string) :
  exported shortest_digits Date_toISOString h fields ->
  exists cells : list (option json),
    row shortest_digits Date_toISOString h = Normal cells /\
    mapM (String_ shortest_digits) cells = Normal fields /\
    length fields = 10%nat.
Proof.
  intros (d & iso & texts & Hd & Hconv & Hiso & Htexts & ->).
  destruct (member_get h _ _ Hd) as [get Hget].
  rewrite Hget in Hd. injection Hd as <-.
  exists (Some (JString iso)
          :: map (fun c : string * bool =>
                    if snd c then or_blank (get (fst c)) else get (fst c))
                 export_columns).
  split.
  { unfold row. rewrite !Hget. cbn [mbind completion_bind]. rewrite Hconv.
    cbn [mbind completion_bind]. rewrite Hiso. reflexivity. }
  assert (Hcells : mapM (String_ shortest_digits)
                     (map (fun c : string * bool =>
                             if snd c then or_blank (get (fst c)) else get (fst c))
                          export_columns)
                   = Normal texts).
  { rewrite mapM_map, <- Htexts. apply mapM_ext. intros [key blank].
    unfold column_text. rewrite Hget. cbn [fst snd mbind completion_bind].
    destruct (get key) as [[] |], blank; reflexivity. }
  split.
  { cbn [mapM]. rewrite Hcells. reflexivity. }
  apply mapM_length in Htexts. cbn [length]. rewrite Htexts. reflexivity.
Qed.

Lemma rows_exported (shortest_digits : Q -> string)
    (Date_toISOString : option json -> option string)
    (history : list json) (records : list (list string)) :
  Forall2 (exported shortest_digits Date_toISOString) history records ->
  exists rows : list (list (option json)),
    mapM (row shortest_digits Date_toISOString) history = Normal rows /\
    mapM (mapM (String_ shortest_digits)) rows = Normal records /\
    length records = length history /\
    Forall (fun fields => length fields = 10%nat) records.
Proof.
  induction 1 as [| h fields history records Hh _ (rows & Hrows & Htexts & Hlen & Hten)].
  - exists []. repeat split. constructor.
  - destruct (row_exported _ _ _ _ Hh) as (cells & Hcells & Hfields & Hlength).
    exists (cells :: rows). cbn [mapM].
    rewrite Hcells, Hfields. cbn [mbind completion_bind].
    rewrite Hrows, Htexts. cbn [mbind completion_bind].
    split; [reflexivity |]. split; [reflexivity |].
    split; [cbn [length]; rewrite Hlen; reflexivity |].
    constructor; assumption.
Qed.

(** A member that has a [toString] of its own cannot be written: the
    export raises and makes no file. *)
Lemma exportHistoryCSV_unconvertible (shortest_digits : Q -> string)
    (Date_toISOString : option json -> option string) (iso : string) :
  Date_toISOString (Some (JString "2024-05-01T10:00:00.000Z")) = Some iso ->
  exportHistoryCSV shortest_digits Date_toISOString
    (Some (Text (JArray
       [JObject [("url", JObject [("toString", JNumber (Fin 1))]);
                 ("date", JString "2024-05-01T10:00:00.000Z")]])))
  = Throw TypeError.
Proof.
  intros H. unfold exportHistoryCSV.
  cbn [getHistory getItem JSON_parse try_catch truthy mbind completion_bind mret
       completion_ret mapM].
  unfold row. cbn [member foldl fst snd String.eqb Ascii.eqb Bool.eqb mbind
                   completion_bind].
  rewrite H. reflexivity.
Qed.

(** C8: on an empty history [exportHistoryCSV] returns without a file.
    On a history of n records whose fields can be written (no record is
    [null], every date is one [toISOString] accepts, every member has a
    text) it produces the header row and then one row per record, in the
    order of the history: n + 1 rows of ten fields joined by line feeds,
    every field between double quotes with the double quotes inside it
    doubled.  The fields of a record are its timestamp in ISO form and
    the texts of its URL, strategy, score, LCP, FID, CLS, TTFB, FCP and
    INP, in that order, empty for an absent value from the score on; and
    a reader of CSV gets back from the text exactly the header names and
    these fields. *)
Theorem exportHistoryCSV_table (shortest_digits : Q -> string)
    (Date_toISOString : option json -> option string) :
  (forall st : storage,
     getHistory st = Normal (JArray []) ->
     exportHistoryCSV shortest_digits Date_toISOString st = Normal None) /\
  (forall (st : storage) (h : json) (history : list json)
          (records : list (list string)),
     getHistory st = Normal (JArray (h :: history)) ->
     Forall2 (exported shortest_digits Date_toISOString) (h :: history) records ->
     exists text : string,
       exportHistoryCSV shortest_digits Date_toISOString st = Normal (Some text) /\
       text = join (String newline "")
                (map (fun fields => join "," (map (fun s =>
                   String dquote (double_quotes s ++ String dquote "")) fields))
                   (header_names :: records)) /\
       length (header_names :: records) = S (length (h :: history)) /\
       Forall (fun fields => length fields = 10%nat) (header_names :: records) /\
       parse_csv text = Some (header_names :: records)) /\
  (forall s : string, parse_csv (quote_field s) = Some [[s]]).
Proof.
  split.
  { intros st H. unfold exportHistoryCSV. rewrite H. reflexivity. }
  split.
  { intros st h history records H Hall.
    destruct (rows_exported _ _ _ _ Hall) as (rows & Hrows & Htexts & Hlen & Hten).
    assert (Hcsv : csv_of shortest_digits (headers :: rows)
                   = Normal (csv_text (header_names :: records))).
    { apply csv_of_text. cbn [mapM]. rewrite headers_text.
      cbn [mbind completion_bind]. rewrite Htexts. reflexivity. }
    exists (csv_text (header_names :: records)).
    split.
    { unfold exportHistoryCSV. rewrite H. cbn [mbind completion_bind].
      rewrite Hrows. cbn [mbind completion_bind]. rewrite Hcsv. reflexivity. }
    split; [reflexivity |].
    split; [cbn [length]; rewrite Hlen; reflexivity |].
    assert (Hten' : Forall (fun fields : list string => length fields = 10%nat)
                      (header_names :: records))
      by (constructor; [reflexivity | exact Hten]).
    split; [exact Hten' |].
    apply parse_csv_text; [discriminate |].
    eapply Forall_impl; [exact Hten' |].
    intros r Hr Hnil. cbv beta in Hr. rewrite Hnil in Hr. discriminate Hr. }
  intros s. change (quote_field s) with (csv_text [[s]]).
  apply parse_csv_text; [discriminate |].
  constructor; [discriminate | constructor].
Qed.

(** A store of two records at which the hypotheses of
    [exportHistoryCSV_table] hold, the date being read as the ISO text it
    is stored as: the rows that are read back hold the fields of each
    record, the second one with nothing but a URL that is no string. *)
Lemma exportHistoryCSV_table_witness :
  exists text : string,
    exportHistoryCSV (fun _ => "")
      (fun v => match v with Some (JString s) => Some s | _ => None end)
      (Some (Text (JArray
         [JObject [("url", JString "https://example.com"); ("strategy", JString "mobile");
                   ("score", JNumber (Fin 95)); ("LCP", JNumber (Fin 1200));
                   ("date", JString "2024-05-01T10:00:00.000Z")];
          JObject [("url", JArray [JNumber (Fin 1); JNull; JBool true]);
                   ("date", JString "2024-05-02T10:00:00.000Z")]])))
    = Normal (Some text) /\
    parse_csv text
    = Some [["Date"; "URL"; "Strategy"; "Score"; "LCP"; "FID"; "CLS"; "TTFB"; "FCP";
             "INP"];
            ["2024-05-01T10:00:00.000Z"; "https://example.com"; "mobile"; "95"; "1200";
             ""; ""; ""; ""; ""];
            ["2024-05-02T10:00:00.000Z"; "1,,true"; "undefined"; ""; ""; ""; ""; "";
             ""; ""]].
Proof.
  destruct (proj1 (proj2 (exportHistoryCSV_table (fun _ => "")
              (fun v => match v with Some (JString s) => Some s | _ => None end)))
              (Some (Text (JArray
                 [JObject [("url", JString "https://example.com");
                           ("strategy", JString "mobile");
                           ("score", JNumber (Fin 95)); ("LCP", JNumber (Fin 1200));
                           ("date", JString "2024-05-01T10:00:00.000Z")];
                  JObject [("url", JArray [JNumber (Fin 1); JNull; JBool true]);
                           ("date", JString "2024-05-02T10:00:00.000Z")]])))
              _ _
              [["2024-05-01T10:00:00.000Z"; "https://example.com"; "mobile"; "95";
                "1200"; ""; ""; ""; ""; ""];
               ["2024-05-02T10:00:00.000Z"; "1,,true"; "undefined"; ""; ""; ""; "";
                ""; ""; ""]]
              eq_refl)
    as (text & Htext & _ & _ & _ & Hread).
  - constructor; [| constructor; [| constructor]].
    + eexists _, _, _.
      split; [reflexivity |]. split; [reflexivity |]. split; [reflexivity |].
      split; reflexivity.
    + eexists _, _, _.
      split; [reflexivity |]. split; [reflexivity |]. split; [reflexivity |].
      split; reflexivity.
  - exists text. split; [exact Htext | exact Hread].
Defined.

(** * Further properties of the code *)

(** ** Escaping of attribute values *)

Lemma replace_all_append (c : ascii) (r a b : string) :
  replace_all c r (a ++ b) = replace_all c r a ++ replace_all c r b.
Proof.
  induction a as [| x a IH]; [reflexivity |].
  rewrite append_cons. cbn [replace_all]. rewrite IH.
  destruct (Ascii.eqb x c); [rewrite append_assoc | rewrite append_cons]; reflexivity.
Qed.

Lemma escapeAttr_cons (c : ascii) (s : string) :
  escapeAttr (String c s)
  = if Ascii.eqb c "&" then "&amp;" ++ escapeAttr s
    else if Ascii.eqb c dquote then "&quot;" ++ escapeAttr s
    else String c (escapeAttr s).
Proof.
  unfold escapeAttr. cbn [replace_all].
  destruct (Ascii.eqb c "&") eqn:Ea.
  - rewrite replace_all_append. reflexivity.
  - cbn [replace_all]. destruct (Ascii.eqb c dquote); reflexivity.
Qed.

Lemma unescapeAttr_escapeAttr (str : string) :
  unescapeAttr (escapeAttr str) = str.
Proof.
  induction str as [| c s IH]; [reflexivity |].
  rewrite escapeAttr_cons.
  destruct (Ascii.eqb c "&") eqn:Ea.
  - apply Ascii.eqb_eq in Ea. subst c.
    change ("&amp;" ++ escapeAttr s)
      with (String "&" (String "a" (String "m" (String "p" (String ";" (escapeAttr s)))))).
    cbn [unescapeAttr Ascii.eqb Bool.eqb andb]. rewrite IH. reflexivity.
  - destruct (Ascii.eqb c dquote) eqn:Eq.
    + apply Ascii.eqb_eq in Eq. subst c.
      change ("&quot;" ++ escapeAttr s)
        with (String "&" (String "q" (String "u" (String "o" (String "t"
               (String ";" (escapeAttr s))))))).
      cbn [unescapeAttr Ascii.eqb Bool.eqb andb]. rewrite IH. reflexivity.
    + cbn [unescapeAttr]. rewrite Ea, IH. reflexivity.
Qed.

(** X1: [escapeAttr] loses nothing: there is a way back from what it
    returns to the string it was given, for every string; so two URLs
    are never written as the same attribute value. *)
Theorem escapeAttr_loses_nothing :
  exists decode : string -> string,
    forall str : string, decode (escapeAttr str) = str.
Proof. exists unescapeAttr. exact unescapeAttr_escapeAttr. Qed.

(** X2: no double quote is left in what [escapeAttr] returns, so the
    value cannot end the double-quoted attribute it is written into. *)
Theorem escapeAttr_no_double_quote (str : string) :
  occurs dquote (escapeAttr str) = false.
Proof.
  induction str as [| c s IH]; [reflexivity |].
  rewrite escapeAttr_cons.
  destruct (Ascii.eqb c "&") eqn:Ea; [exact IH |].
  destruct (Ascii.eqb c dquote) eqn:Eq; [exact IH |].
  cbn [occurs]. rewrite Eq, IH. reflexivity.
Qed.

(** ** Order of ratings *)

Lemma leq_trans (x y z : number) : (x <= y)%num -> (y <= z)%num -> (x <= z)%num.
Proof.
  destruct x as [| [|] | a], y as [| [|] | b], z as [| [|] | c]; simpl; try tauto.
  apply Qle_trans.
Qed.

Lemma le_mono_l (v w b : number) :
  (v <= w)%num -> Number.le w b = true -> Number.le v b = true.
Proof.
  intros Hvw Hwb. apply le_leq. apply le_leq in Hwb.
  eapply leq_trans; eassumption.
Qed.

(** X3: a larger value is never rated better: for a kind of the table and
    two numbers [v <= w], the rating of [w] is at least as bad as that of
    [v]. *)
Theorem getRating_monotone (k : string) (t : Threshold) (v w : number) :
  THRESHOLDS !! k = Some t -> (v <= w)%num ->
  (severity (getRating k (Some v)) <= severity (getRating k (Some w)))%nat.
Proof.
  intros Hk Hvw. unfold getRating. rewrite (THRESHOLDS_at_entry k t Hk).
  destruct (Number.le w (good t)) eqn:Ewg.
  { rewrite (le_mono_l v w _ Hvw Ewg). reflexivity. }
  destruct (Number.le w (poor t)) eqn:Ewp.
  { rewrite (le_mono_l v w _ Hvw Ewp).
    destruct (Number.le v (good t)); simpl; lia. }
  destruct (Number.le v (good t)); [simpl; lia |].
  destruct (Number.le v (poor t)); simpl; lia.
Qed.

(** LCP at 2000 and 3000 ms, for [getRating_monotone]. *)
Lemma getRating_monotone_witness :
  (severity (getRating "LCP" (Some (Fin 2000)))
   <= severity (getRating "LCP" (Some (Fin 3000))))%nat.
Proof.
  apply (getRating_monotone "LCP"
           {| good := Fin 2500; poor := Fin 4000; unit := "ms";
              label := "Largest Contentful Paint" |}).
  - vm_compute. reflexivity.
  - discriminate.
Defined.

(** X4: a higher score is never rated worse. *)
Theorem getScoreRating_antitone (s s' : number) :
  (s <= s')%num ->
  (severity (getScoreRating (Some s')) <= severity (getScoreRating (Some s)))%nat.
Proof.
  intros Hs. unfold getScoreRating, Number.ge.
  destruct (Number.le (Fin 90) s) eqn:E90.
  { assert (H : Number.le (Fin 90) s' = true).
    { apply le_leq. apply le_leq in E90. eapply leq_trans; eassumption. }
    rewrite H. reflexivity. }
  destruct (Number.le (Fin 50) s) eqn:E50.
  { assert (H : Number.le (Fin 50) s' = true).
    { apply le_leq. apply le_leq in E50. eapply leq_trans; eassumption. }
    rewrite H. destruct (Number.le (Fin 90) s'); simpl; lia. }
  destruct (Number.le (Fin 90) s'); [simpl; lia |].
  destruct (Number.le (Fin 50) s'); simpl; lia.
Qed.

(** Scores 40 and 95, for [getScoreRating_antitone]. *)
Lemma getScoreRating_antitone_witness :
  (severity (getScoreRating (Some (Fin 95)))
   <= severity (getScoreRating (Some (Fin 40))))%nat.
Proof.
  apply getScoreRating_antitone. discriminate.
Defined.

(** ** The other metrics of the extractor *)

(** X5: FID and INP are read from field data alone: FID is the field
    percentile of first input delay, INP the percentile of interaction to
    next paint or, failing that, of its experimental variant; whatever
    the Lighthouse block of the response holds, they come out the same. *)
Theorem extractMetrics_field_only_metrics (data : PageSpeed.Response)
    (lighthouse : option PageSpeed.LighthouseResult) :
  let data' := {| PageSpeed.loadingExperience := PageSpeed.loadingExperience data;
                  PageSpeed.lighthouseResult := lighthouse |} in
  FID (extractMetrics data) = field_percentile data "FIRST_INPUT_DELAY_MS" /\
  INP (extractMetrics data)
  = field_percentile data "INTERACTION_TO_NEXT_PAINT"
    ?? field_percentile data "EXPERIMENTAL_INTERACTION_TO_NEXT_PAINT" /\
  FID (extractMetrics data') = FID (extractMetrics data) /\
  INP (extractMetrics data') = INP (extractMetrics data).
Proof.
  intros data'.
  assert (H : forall d : PageSpeed.Response,
            FID (extractMetrics d) = field_percentile d "FIRST_INPUT_DELAY_MS" /\
            INP (extractMetrics d)
            = field_percentile d "INTERACTION_TO_NEXT_PAINT"
              ?? field_percentile d "EXPERIMENTAL_INTERACTION_TO_NEXT_PAINT").
  { intros d. unfold extractMetrics; simpl.
    destruct (extract_sources d "FIRST_INPUT_DELAY_MS" "") as [-> _].
    destruct (extract_sources d "INTERACTION_TO_NEXT_PAINT" "") as [-> _].
    destruct (extract_sources d "EXPERIMENTAL_INTERACTION_TO_NEXT_PAINT" "") as [-> _].
    split.
    - destruct (field_percentile d "FIRST_INPUT_DELAY_MS"); reflexivity.
    - destruct (field_percentile d "INTERACTION_TO_NEXT_PAINT"); [reflexivity |].
      destruct (field_percentile d "EXPERIMENTAL_INTERACTION_TO_NEXT_PAINT");
        reflexivity. }
  destruct (H data) as [Hfid Hinp]. destruct (H data') as [Hfid' Hinp'].
  split; [exact Hfid |]. split; [exact Hinp |].
  rewrite Hfid, Hinp, Hfid', Hinp'. split; reflexivity.
Qed.

(** X6: FCP and TTFB follow the chain of LCP: the field percentile
    unchanged when the response has one (first contentful paint; the
    experimental time to first byte), failing that the lab value of the
    audit (first-contentful-paint; server-response-time) rounded, failing
    both absent; a finite lab value comes out as an integer within one
    half of it. *)
Theorem extractMetrics_FCP_TTFB (data : PageSpeed.Response) :
  let rounded (lab : option number) :=
    match lab with Some v => Some (Math_round v) | None => None end in
  FCP (extractMetrics data)
  = field_percentile data "FIRST_CONTENTFUL_PAINT_MS"
    ?? rounded (lab_value data "first-contentful-paint") /\
  TTFB (extractMetrics data)
  = field_percentile data "EXPERIMENTAL_TIME_TO_FIRST_BYTE"
    ?? rounded (lab_value data "server-response-time") /\
  (forall q : Q,
     field_percentile data "FIRST_CONTENTFUL_PAINT_MS" = None ->
     lab_value data "first-contentful-paint" = Some (Fin q) ->
     exists z : Z,
       FCP (extractMetrics data) = Some (Fin (inject_Z z)) /\
       (q - (1 # 2) < inject_Z z)%Q /\ (inject_Z z <= q + (1 # 2))%Q) /\
  (forall q : Q,
     field_percentile data "EXPERIMENTAL_TIME_TO_FIRST_BYTE" = None ->
     lab_value data "server-response-time" = Some (Fin q) ->
     exists z : Z,
       TTFB (extractMetrics data) = Some (Fin (inject_Z z)) /\
       (q - (1 # 2) < inject_Z z)%Q /\ (inject_Z z <= q + (1 # 2))%Q).
Proof.
  intros rounded.
  assert (Hfcp : FCP (extractMetrics data)
                 = field_percentile data "FIRST_CONTENTFUL_PAINT_MS"
                   ?? rounded (lab_value data "first-contentful-paint")).
  { unfold extractMetrics; simpl.
    destruct (extract_sources data "FIRST_CONTENTFUL_PAINT_MS"
                "first-contentful-paint") as [-> ->].
    reflexivity. }
  assert (Httfb : TTFB (extractMetrics data)
                  = field_percentile data "EXPERIMENTAL_TIME_TO_FIRST_BYTE"
                    ?? rounded (lab_value data "server-response-time")).
  { unfold extractMetrics; simpl.
    destruct (extract_sources data "EXPERIMENTAL_TIME_TO_FIRST_BYTE"
                "server-response-time") as [-> ->].
    reflexivity. }
  split; [exact Hfcp |]. split; [exact Httfb |].
  split.
  - intros q Hf Hl. rewrite Hfcp, Hf, Hl.
    destruct (Math_round_nearest q) as (z & Hz & Hb).
    exists z. split; [| exact Hb]. unfold rounded, nullish. rewrite Hz. reflexivity.
  - intros q Hf Hl. rewrite Httfb, Hf, Hl.
    destruct (Math_round_nearest q) as (z & Hz & Hb).
    exists z. split; [| exact Hb]. unfold rounded, nullish. rewrite Hz. reflexivity.
Qed.

(** A response with a lab value only, for [extractMetrics_FCP_TTFB]. *)
Lemma extractMetrics_FCP_TTFB_witness :
  exists z : Z,
    FCP (extractMetrics (lab_only "first-contentful-paint" (Fin (7 # 2))))
    = Some (Fin (inject_Z z)) /\
    ((7 # 2) - (1 # 2) < inject_Z z)%Q /\ (inject_Z z <= (7 # 2) + (1 # 2))%Q.
Proof.
  apply (proj1 (proj2 (proj2 (extractMetrics_FCP_TTFB
           (lab_only "first-contentful-paint" (Fin (7 # 2))))))).
  - vm_compute. reflexivity.
  - vm_compute. reflexivity.
Defined.

(** ** Rounding to binary64 *)

Lemma pow2_Qpower (e : Z) : (pow2 e == 2 ^ e)%Q.
Proof.
  unfold pow2. destruct (Z.leb_spec 0 e) as [He | He].
  - rewrite Zpower_Qpower by exact He. reflexivity.
  - rewrite Zpower_Qpower by lia.
    rewrite <- Qpower_opp, Z.opp_involutive. reflexivity.
Qed.

Lemma pow2_add (a b : Z) : (pow2 (a + b) == pow2 a * pow2 b)%Q.
Proof.
  rewrite !pow2_Qpower. apply Qpower_plus. discriminate.
Qed.

Lemma pow2_le (a b : Z) : a <= b -> (pow2 a <= pow2 b)%Q.
Proof.
  intros H. rewrite !pow2_Qpower. apply Qpower_le_compat_l; [exact H | discriminate].
Qed.

Lemma pow2_inject (e : Z) : 0 <= e -> pow2 e = inject_Z (2 ^ e).
Proof.
  intros He. unfold pow2. destruct (Z.leb_spec 0 e); [reflexivity | lia].
Qed.

Lemma pow2_cancel (p : Z) : (pow2 (- p) * pow2 p == 1)%Q.
Proof.
  rewrite <- pow2_add. replace (- p + p) with 0 by lia. reflexivity.
Qed.

Lemma round_half_even_integer (x : Q) (k : Z) :
  (x == inject_Z k)%Q -> round_half_even x = k.
Proof.
  intros Hx. unfold round_half_even.
  rewrite (Qfloor_comp _ _ Hx), Qfloor_Z.
  assert (Hc : ((x - inject_Z k) ?= (1 # 2))%Q = Lt).
  { rewrite Hx. rewrite <- Qlt_alt. lra. }
  rewrite Hc. reflexivity.
Qed.

Lemma round_half_even_le (x : Q) (K : Z) :
  (x <= inject_Z K)%Q -> round_half_even x <= K.
Proof.
  intros Hx. unfold round_half_even.
  pose proof (Qfloor_resp_le _ _ Hx) as Hf. rewrite Qfloor_Z in Hf.
  destruct (Z.eq_dec (Qfloor x) K) as [E | E].
  - assert (Hx' : (x == inject_Z K)%Q).
    { apply Qle_antisym; [exact Hx |]. rewrite <- E. apply Qfloor_le. }
    assert (Hc : ((x - inject_Z (Qfloor x)) ?= (1 # 2))%Q = Lt).
    { rewrite E, Hx'. rewrite <- Qlt_alt. lra. }
    rewrite Hc. lia.
  - destruct (_ ?= _)%Q; [destruct (Z.even _) | |]; lia.
Qed.

Lemma Qred_inject_Z (z : Z) : Qred (inject_Z z) = inject_Z z.
Proof.
  unfold Qred, inject_Z.
  pose proof (Z.ggcd_gcd z 1) as Hg.
  pose proof (Z.ggcd_correct_divisors z 1) as Hd.
  destruct (Z.ggcd z 1) as (g, (aa, bb)). simpl in *.
  rewrite Z.gcd_1_r in Hg. subst g. destruct Hd as [Ha Hb].
  rewrite Z.mul_1_l in Ha, Hb. subst aa bb. reflexivity.
Qed.

Lemma ilog2_lower (a : Q) : (0 < a)%Q -> (pow2 (ilog2 a) <= a)%Q.
Proof.
  intros Ha. unfold ilog2.
  destruct (Qle_bool _ a) eqn:E; [apply Qle_bool_iff, E |].
  destruct a as [n d]. cbn [Qnum Qden].
  assert (Hn : 0 < n) by (unfold Qlt in Ha; simpl in Ha; lia).
  pose proof (Z.log2_spec n Hn) as [Hln _].
  pose proof (Z.log2_spec (Z.pos d) (Pos2Z.is_pos d)) as [_ Hld].
  pose proof (Z.log2_nonneg n) as Hln0.
  pose proof (Z.log2_nonneg (Z.pos d)) as Hld0.
  set (ln := Z.log2 n) in *. set (ld := Z.log2 (Z.pos d)) in *.
  apply (Qmult_le_r _ _ (pow2 (Z.succ ld))); [apply pow2_pos |].
  rewrite <- pow2_add.
  replace (ln - ld - 1 + Z.succ ld) with ln by lia.
  rewrite !pow2_inject by lia.
  unfold Qle, Qmult, inject_Z. cbn [Qnum Qden].
  rewrite Z.mul_1_r, Pos.mul_1_r.
  apply Z.mul_le_mono_nonneg; lia.
Qed.

Lemma pow2_53_gt (N : Z) : N < 2 ^ 53 -> (inject_Z N < pow2 53)%Q.
Proof.
  intros H. rewrite pow2_inject by lia. rewrite <- Zlt_Qlt. exact H.
Qed.

Lemma binary64_bounded (q : Q) (N : Z) :
  (0 <= q)%Q -> (q <= inject_Z N)%Q -> 0 < N < 2 ^ 53 ->
  exists v : Q, binary64 q = Fin v /\ (0 <= v)%Q /\ (v <= inject_Z N)%Q.
Proof.
  intros H0 HN HNb.
  assert (HN0 : (0 <= inject_Z N)%Q).
  { change 0%Q with (inject_Z 0). rewrite <- Zle_Qle. lia. }
  unfold binary64. destruct (Qnum q) as [| n | n] eqn:En.
  - exists 0%Q. split; [reflexivity |]. split; [apply Qle_refl | exact HN0].
  - cbv zeta.
    assert (Hq : (0 < q)%Q).
    { destruct q as [qn qd]. simpl in En. subst qn. reflexivity. }
    assert (Ha : (Qabs q == q)%Q) by (apply Qabs_pos, H0).
    generalize dependent (Qabs q). intros a Ha.
    assert (Ha0 : (0 < a)%Q) by (rewrite Ha; exact Hq).
    assert (HaN : (a <= inject_Z N)%Q) by (rewrite Ha; exact HN).
    pose proof (ilog2_lower a Ha0) as Hlow.
    assert (He : ilog2 a <= 52).
    { destruct (Z.le_gt_cases (ilog2 a) 52) as [H | H]; [exact H | exfalso].
      pose proof (pow2_le 53 (ilog2 a) ltac:(lia)) as H53.
      pose proof (pow2_53_gt N ltac:(lia)) as HN53. lra. }
    set (p := Z.max (ilog2 a - 52) (-1074)).
    assert (Hp : p <= 0) by lia.
    set (K := N * 2 ^ (- p)).
    assert (HK : (inject_Z K * pow2 p == inject_Z N)%Q).
    { unfold K. rewrite inject_Z_mult, <- (pow2_inject (- p)) by lia.
      rewrite <- Qmult_assoc, pow2_cancel. apply Qmult_1_r. }
    pose proof (pow2_pos p) as Hpp.
    assert (Hx : (a / pow2 p <= inject_Z K)%Q).
    { apply Qle_shift_div_r; [exact Hpp |]. rewrite HK. exact HaN. }
    assert (Hx0 : (0 <= a / pow2 p)%Q).
    { apply Qle_shift_div_l; [exact Hpp |]. rewrite Qmult_0_l. lra. }
    pose proof (round_half_even_le _ _ Hx) as Hm.
    pose proof (round_half_even_nonneg _ Hx0) as Hm0.
    set (m := round_half_even (a / pow2 p)) in *.
    assert (Hv : (inject_Z m * pow2 p <= inject_Z N)%Q).
    { rewrite <- HK. apply Qmult_le_compat_r; [| lra].
      rewrite <- Zle_Qle. exact Hm. }
    assert (Hv0 : (0 <= inject_Z m * pow2 p)%Q).
    { apply Qmult_le_0_compat; [| lra].
      change 0%Q with (inject_Z 0). rewrite <- Zle_Qle. exact Hm0. }
    destruct (Qle_bool (pow2 1024) (Qred (inject_Z m * pow2 p))) eqn:Eo.
    { exfalso. apply Qle_bool_iff in Eo. rewrite Qred_correct in Eo.
      pose proof (pow2_le 53 1024 ltac:(lia)) as H1024.
      pose proof (pow2_53_gt N ltac:(lia)) as HN53. lra. }
    change (Z.pos n <? 0) with false. cbv iota.
    eexists. split; [reflexivity |].
    rewrite Qred_correct. split; assumption.
  - exfalso. destruct q as [qn qd]. simpl in En. subst qn.
    unfold Qle in H0. simpl in H0. lia.
Qed.

Lemma ilog2_integer (z : Z) : 0 < z -> ilog2 (inject_Z z) = Z.log2 z.
Proof.
  intros Hz. unfold ilog2.
  change (Qnum (inject_Z z)) with z.
  change (Z.log2 (Z.pos (Qden (inject_Z z)))) with 0. rewrite Z.sub_0_r.
  pose proof (Z.log2_spec z Hz) as [Hlo _].
  pose proof (Z.log2_nonneg z) as H0.
  assert (E : Qle_bool (pow2 (Z.log2 z)) (inject_Z z) = true).
  { apply Qle_bool_iff. rewrite pow2_inject by lia.
    rewrite <- Zle_Qle. exact Hlo. }
  rewrite E. reflexivity.
Qed.

(** Integers below 2^53 are binary64 values. *)
Lemma binary64_integer (z : Z) :
  0 <= z < 2 ^ 53 -> binary64 (inject_Z z) = Fin (inject_Z z).
Proof.
  intros Hz. destruct z as [| n | n]; [reflexivity | | lia].
  unfold binary64.
  change (Qnum (inject_Z (Z.pos n))) with (Z.pos n). cbv iota zeta.
  change (Qabs (inject_Z (Z.pos n))) with (inject_Z (Z.pos n)).
  change (Z.pos n <? 0) with false. cbv iota.
  rewrite ilog2_integer by lia.
  pose proof (Z.log2_spec (Z.pos n) ltac:(lia)) as [Hlo Hhi].
  pose proof (Z.log2_nonneg (Z.pos n)) as H0.
  assert (He : Z.log2 (Z.pos n) <= 52).
  { apply Z.lt_succ_r. apply (Z.pow_lt_mono_r_iff 2); lia. }
  set (e := Z.log2 (Z.pos n)) in *.
  rewrite Z.max_l by lia.
  assert (Hc : (pow2 (52 - e) * pow2 (e - 52) == 1)%Q).
  { rewrite <- pow2_add. replace (52 - e + (e - 52)) with 0 by lia. reflexivity. }
  pose proof (pow2_pos (e - 52)) as Hpp.
  assert (Hx : (inject_Z (Z.pos n) / pow2 (e - 52)
                == inject_Z (Z.pos n * 2 ^ (52 - e)))%Q).
  { rewrite inject_Z_mult, <- (pow2_inject (52 - e)) by lia.
    apply Qmult_inj_r with (pow2 (e - 52)); [lra |].
    rewrite <- Qmult_assoc, Hc. field. lra. }
  rewrite (round_half_even_integer _ _ Hx).
  assert (Hv : (inject_Z (Z.pos n * 2 ^ (52 - e)) * pow2 (e - 52)
                == inject_Z (Z.pos n))%Q).
  { rewrite inject_Z_mult, <- (pow2_inject (52 - e)) by lia.
    rewrite <- Qmult_assoc, Hc. apply Qmult_1_r. }
  rewrite (Qred_complete _ _ Hv), Qred_inject_Z.
  assert (Eo : Qle_bool (pow2 1024) (inject_Z (Z.pos n)) = false).
  { destruct (Qle_bool _ _) eqn:E; [exfalso | reflexivity].
    apply Qle_bool_iff in E.
    pose proof (pow2_le 53 1024 ltac:(lia)) as H1024.
    pose proof (pow2_53_gt (Z.pos n) ltac:(lia)) as HN53. lra. }
  rewrite Eo. reflexivity.
Qed.

(** ** The score *)

Lemma extractMetrics_score (data : PageSpeed.Response) :
  score (extractMetrics data)
  = match provider_score data with
    | Some s => Some (Math_round (Number.mul s 100))
    | None => None
    end.
Proof.
  unfold extractMetrics, provider_score; simpl.
  destruct data as [le [[au [[[[[s |]] |]] |]] |]]; reflexivity.
Qed.

(** X7: the score of [extractMetrics] is absent exactly when the
    response has none, and a provider score between 0 and 1 comes out as
    an integer between 0 and 100. *)
Theorem extractMetrics_score_range (data : PageSpeed.Response) :
  (score (extractMetrics data) = None <-> provider_score data = None) /\
  (forall s : Q,
     provider_score data = Some (Fin s) -> (0 <= s)%Q -> (s <= 1)%Q ->
     exists z : Z,
       score (extractMetrics data) = Some (Fin (inject_Z z)) /\ 0 <= z <= 100).
Proof.
  rewrite extractMetrics_score. split.
  - destruct (provider_score data); split; congruence.
  - intros s -> H0 H1.
    destruct (binary64_bounded (s * 100) 100) as (v & Hv & Hv0 & Hv100).
    { apply Qmult_le_0_compat; [exact H0 | discriminate]. }
    { change (inject_Z 100) with 100%Q. lra. }
    { split; [lia | reflexivity]. }
    exists (Qfloor (v + (1 # 2))). split.
    + cbn [Number.mul]. rewrite Hv. reflexivity.
    + split.
      * change 0 with (Qfloor 0). apply Qfloor_resp_le. lra.
      * apply Z.le_trans with (Qfloor (100 + (1 # 2))); [| discriminate].
        apply Qfloor_resp_le.
        change (inject_Z 100) with 100%Q in Hv100. lra.
Qed.

(** A response with the score 0.95, for [extractMetrics_score_range]. *)
Lemma extractMetrics_score_range_witness :
  exists z : Z,
    score (extractMetrics (score_only (Fin (95 # 100)))) = Some (Fin (inject_Z z)) /\
    0 <= z <= 100.
Proof.
  apply (proj2 (extractMetrics_score_range (score_only (Fin (95 # 100)))) (95 # 100)).
  - reflexivity.
  - discriminate.
  - discriminate.
Defined.

(** ** Cards of the session list *)

(** Every key of the loop is a kind of the table. *)
Lemma metric_keys_recognized :
  Forall (fun key => exists t, THRESHOLDS !! key = Some t) metric_keys.
Proof.
  repeat constructor; eexists; vm_compute; reflexivity.
Qed.

Lemma metric_tiles_Normal (shortest_digits : Q -> string) (m : Metrics) :
  mapM (metric_tile shortest_digits m) metric_keys
  = Normal (map (tile_of shortest_digits m) metric_keys).
Proof.
  apply mapM_Normal.
  eapply Forall_impl; [exact metric_keys_recognized |].
  intros key [t Ht]. cbv beta. unfold metric_tile, tile_of.
  rewrite (THRESHOLDS_at_entry key t Ht), Ht. reflexivity.
Qed.

Lemma cards_from_spec (shortest_digits : Q -> string) (escapeHTML : string -> string)
    (results : list Result) (index : nat) :
  exists cs : list Card,
    cards_from shortest_digits escapeHTML index results = Normal cs /\
    length cs = length results /\
    forall (i : nat) (r : Result),
      results !! i = Some r ->
      exists c : Card,
        cs !! i = Some c /\
        data_index c
        = Number_toString shortest_digits (Fin (inject_Z (Z.of_nat (index + i)))) /\
        site_url c = escapeHTML (url r) /\
        strategy_badge c = strategy r /\
        score_rating c = getScoreRating (score (metrics r)) /\
        metric_tiles c = map (tile_of shortest_digits (metrics r)) metric_keys.
Proof.
  revert index. induction results as [| r results IH]; intros index.
  - exists []. split; [reflexivity |]. split; [reflexivity |].
    intros i r Hi. rewrite lookup_nil in Hi. discriminate.
  - destruct (IH (S index)) as (cs & Hcs & Hlen & Hall).
    cbn [cards_from]. unfold card. rewrite metric_tiles_Normal.
    cbn [mbind completion_bind mret completion_ret]. rewrite Hcs.
    cbn [mbind completion_bind mret completion_ret].
    eexists. split; [reflexivity |]. split; [cbn [length]; rewrite Hlen; reflexivity |].
    intros [| i] r' Hi.
    + cbn in Hi. injection Hi as <-.
      eexists. split; [reflexivity |]. cbn.
      rewrite Nat.add_0_r. repeat split; reflexivity.
    + cbn in Hi. destruct (Hall i r' Hi) as (c & Hc & Hd & Hrest).
      exists c. split; [exact Hc |].
      split; [| exact Hrest].
      rewrite Hd. do 4 f_equal. lia.
Qed.

Lemma getRating_na_iff_absent (key : string) (t : Threshold) (v : option number) :
  THRESHOLDS !! key = Some t -> (getRating key v = na <-> v = None).
Proof.
  intros Ht. unfold getRating. rewrite (THRESHOLDS_at_entry key t Ht).
  destruct v as [v |].
  - destruct (Number.le v (good t)); [| destruct (Number.le v (poor t))];
      split; discriminate.
  - split; reflexivity.
Qed.

(** X8: [renderResults] never raises (every key of its loop has an entry
    in the table, so reading [label] is safe); it hides the section
    exactly when the list is empty and makes one card per result, in
    order, each with the six tiles LCP, FID, CLS, TTFB, FCP, INP; a tile
    is rated [na] exactly when its metric is absent, and then shows
    "N/A". *)
Theorem renderResults_cards (shortest_digits : Q -> string)
    (escapeHTML : string -> string) (results : list Result) :
  exists view : ResultsView,
    renderResults shortest_digits escapeHTML results = Normal view /\
    (hidden view = true <-> results = []) /\
    length (cards view) = length results /\
    forall (i : nat) (r : Result),
      results !! i = Some r ->
      exists c : Card,
        cards view !! i = Some c /\
        site_url c = escapeHTML (url r) /\
        strategy_badge c = strategy r /\
        map tile_name (metric_tiles c) = ["LCP"; "FID"; "CLS"; "TTFB"; "FCP"; "INP"] /\
        Forall (fun tile =>
                  (tile_rating tile = na <->
                   metric_of (metrics r) (tile_name tile) = None) /\
                  (metric_of (metrics r) (tile_name tile) = None ->
                   tile_value tile = "N/A"))
               (metric_tiles c).
Proof.
  destruct (cards_from_spec shortest_digits escapeHTML results 0)
    as (cs & Hcs & Hlen & Hall).
  unfold renderResults. rewrite Hcs.
  eexists. split; [reflexivity |]. cbn [hidden cards].
  split; [destruct results; split; congruence |].
  split; [exact Hlen |].
  intros i r Hi. destruct (Hall i r Hi) as (c & Hc & _ & Hu & Hs & _ & Ht).
  exists c. split; [exact Hc |]. split; [exact Hu |]. split; [exact Hs |].
  rewrite Ht. split; [reflexivity |].
  rewrite Forall_map.
  eapply Forall_impl; [exact metric_keys_recognized |].
  intros key [t Hkey]. cbv beta. cbn [tile_of tile_rating tile_name tile_value].
  split; [apply (getRating_na_iff_absent key t), Hkey |].
  intros ->. reflexivity.
Qed.

(** A list of one result, for [renderResults_cards]. *)
Lemma renderResults_cards_witness :
  exists view : ResultsView,
    renderResults (fun _ => "") (fun s => s)
      [{| url := "https://example.com"; strategy := "mobile";
          metrics := extractMetrics no_data; date := "2024-05-01T10:00:00.000Z" |}]
    = Normal view /\
    length (cards view) = 1%nat.
Proof.
  destruct (renderResults_cards (fun _ => "") (fun s => s)
              [{| url := "https://example.com"; strategy := "mobile";
                  metrics := extractMetrics no_data;
                  date := "2024-05-01T10:00:00.000Z" |}])
    as (view & Hview & _ & Hlen & _).
  exists view. split; [exact Hview | exact Hlen].
Defined.

(** ** The remove button *)

Lemma digit_facts (d : Z) :
  0 <= d < 10 ->
  digit_value (digit d) = Some d /\ is_space (digit d) = false /\
  Ascii.eqb (digit d) "-" = false /\ Ascii.eqb (digit d) "+" = false.
Proof.
  intros Hd.
  assert (H : d = 0 \/ d = 1 \/ d = 2 \/ d = 3 \/ d = 4 \/ d = 5 \/ d = 6 \/
              d = 7 \/ d = 8 \/ d = 9) by lia.
  repeat (destruct H as [-> | H]; [repeat split; reflexivity |]).
  subst d. repeat split; reflexivity.
Qed.

Lemma read_digits_append (a b : string) (acc : Z) :
  digits_only a = true ->
  read_digits (a ++ b) acc = read_digits b (read_digits a acc).
Proof.
  revert acc. induction a as [| c a IH]; intros acc Ha; [reflexivity |].
  rewrite append_cons. cbn [digits_only read_digits] in *.
  destruct (digit_value c); [apply IH, Ha | discriminate].
Qed.

Lemma digits_only_append (a b : string) :
  digits_only a = true -> digits_only b = true -> digits_only (a ++ b) = true.
Proof.
  intros Ha Hb. induction a as [| c a IH]; [exact Hb |].
  rewrite append_cons. cbn [digits_only] in *.
  destruct (digit_value c); [apply IH, Ha | discriminate].
Qed.

(** The numeral of a natural number is made of digits, and reads back as
    the number. *)
Lemma decimal_reads_back (n : Z) :
  0 <= n ->
  digits_only (decimal n) = true /\ read_digits (decimal n) 0 = n /\
  exists c rest, decimal n = String c rest /\ exists d, 0 <= d < 10 /\ c = digit d.
Proof.
  intros Hn.
  assert (H : forall k : nat, forall m : Z, 0 <= m < Z.of_nat k ->
            digits_only (decimal m) = true /\ read_digits (decimal m) 0 = m /\
            exists c rest, decimal m = String c rest /\
                           exists d, 0 <= d < 10 /\ c = digit d).
  { induction k as [| k IH]; intros m Hm; [lia |].
    destruct (Z.ltb_spec m 10) as [Hlt | Hge].
    - rewrite decimal_small by lia.
      destruct (digit_facts m ltac:(lia)) as (Hv & _).
      cbn [digits_only read_digits]. rewrite Hv.
      split; [reflexivity |]. split; [lia |].
      eexists _, _. split; [reflexivity |]. exists m. split; [lia | reflexivity].
    - rewrite decimal_step by lia.
      assert (Hq : 0 <= m / 10 < Z.of_nat k).
      { split; [apply Z.div_pos; lia |].
        apply Z.div_lt_upper_bound; lia. }
      destruct (IH (m / 10) Hq) as (Hd & Hr & c & rest & Hc & Hdig).
      pose proof (Z.mod_pos_bound m 10 ltac:(lia)) as Hmod.
      destruct (digit_facts (m mod 10) Hmod) as (Hv & _).
      split.
      { apply digits_only_append; [exact Hd |].
        cbn [digits_only]. rewrite Hv. reflexivity. }
      split.
      { rewrite read_digits_append by exact Hd. rewrite Hr.
        cbn [read_digits]. rewrite Hv.
        pose proof (Z.div_mod m 10 ltac:(lia)). lia. }
      exists c, (rest ++ String (digit (m mod 10)) "").
      split; [rewrite Hc; apply append_cons | exact Hdig]. }
  apply (H (S (Z.to_nat n))). lia.
Qed.

(** [parseInt] of the numeral of an index gives the index back. *)
Lemma parseInt_decimal (n : Z) :
  0 <= n < 2 ^ 53 -> parseInt (decimal n) = Fin (inject_Z n).
Proof.
  intros Hn.
  destruct (decimal_reads_back n ltac:(lia)) as (_ & Hr & c & rest & Hc & d & Hd & ->).
  destruct (digit_facts d Hd) as (Hv & Hsp & Hminus & Hplus).
  unfold parseInt. rewrite Hc in *.
  cbn [skip_spaces]. rewrite Hsp. cbv zeta. rewrite Hminus, Hplus.
  cbn [fst snd]. rewrite Hv, Hr.
  apply binary64_integer. exact Hn.
Qed.

(** X9: the remove button of a card removes that card's result: with the
    cards as [renderResults] made them, a click on the button of the card
    at position [i] leaves the list without its element at [i], the
    others in their order. *)
Theorem remove_button_removes_its_card (shortest_digits : Q -> string)
    (escapeHTML : string -> string) (results : list Result)
    (view : ResultsView) (i : nat) (c : Card) :
  Z.of_nat (length results) <= 2 ^ 53 ->
  renderResults shortest_digits escapeHTML results = Normal view ->
  cards view !! i = Some c ->
  clickRemove c results = (take i results ++ drop (S i) results)%list /\
  length (clickRemove c results) = (length results - 1)%nat /\
  forall j : nat,
    clickRemove c results !! j = if (j <? i)%nat then results !! j else results !! S j.
Proof.
  intros Hlen Hview Hc.
  destruct (cards_from_spec shortest_digits escapeHTML results 0)
    as (cs & Hcs & Hlen' & Hall).
  unfold renderResults in Hview. rewrite Hcs in Hview.
  injection Hview as <-. cbn [cards] in Hc.
  assert (Hi : (i < length results)%nat).
  { rewrite <- Hlen'. apply lookup_lt_is_Some. eauto. }
  destruct (lookup_lt_is_Some_2 results i Hi) as [r Hr].
  destruct (Hall i r Hr) as (c' & Hc' & Hd & _).
  rewrite Hc in Hc'. injection Hc' as <-.
  assert (Heq : clickRemove c results = (take i results ++ drop (S i) results)%list).
  { unfold clickRemove. rewrite Hd. cbn [Nat.add].
    rewrite Number_toString_integer by lia.
    unfold signed_decimal.
    destruct (Z.ltb_spec (Z.of_nat i) 0) as [Hneg | _]; [lia |].
    rewrite append_nil_l, Z.abs_eq by lia.
    rewrite parseInt_decimal by lia.
    rewrite (removeAt_integer results (Z.of_nat i) (Z.of_nat i)).
    - rewrite Nat2Z.id. reflexivity.
    - destruct (Z.ltb_spec (Z.of_nat i) 0); lia. }
  rewrite Heq. split; [reflexivity |].
  split; [| intros j; apply take_drop_lookup].
  rewrite length_app, length_take, length_drop. lia.
Qed.

(** A list of two results and the button of its second card, for
    [remove_button_removes_its_card]. *)
Lemma remove_button_removes_its_card_witness :
  exists (view : ResultsView) (c : Card),
    cards view !! 1%nat = Some c /\
    clickRemove c
      [{| url := "a"; strategy := "mobile"; metrics := extractMetrics no_data;
          date := "d1" |};
       {| url := "b"; strategy := "desktop"; metrics := extractMetrics no_data;
          date := "d2" |}]
    = [{| url := "a"; strategy := "mobile"; metrics := extractMetrics no_data;
          date := "d1" |}].
Proof.
  set (rs := [{| url := "a"; strategy := "mobile"; metrics := extractMetrics no_data;
                 date := "d1" |};
              {| url := "b"; strategy := "desktop"; metrics := extractMetrics no_data;
                 date := "d2" |}]).
  destruct (cards_from_spec (fun _ => "") (fun s => s) rs 0) as (cs & Hcs & _ & Hall).
  destruct (Hall 1%nat _ eq_refl) as (c & Hc & _).
  exists {| hidden := false; cards := cs |}, c.
  split; [exact Hc |].
  assert (Hlen : Z.of_nat (length rs) <= 2 ^ 53) by (vm_compute; discriminate).
  assert (Hview : renderResults (fun _ => "") (fun s => s) rs
                  = Normal {| hidden := false; cards := cs |}).
  { unfold renderResults. rewrite Hcs. reflexivity. }
  exact (proj1 (remove_button_removes_its_card _ _ rs _ 1 c Hlen Hview Hc)).
Defined.

(** ** The handlers and the store *)

Lemma stored_record_rewritten (r : Result) :
  rewritten (stored_record r) = stored_record r.
Proof. apply rewritten_idempotent. Qed.

Lemma saved_records (r : Result) (rs : list Result) :
  map rewritten (take MAX_HISTORY (historyEntry r :: map stored_record rs))
  = map stored_record (take MAX_HISTORY (r :: rs)).
Proof.
  rewrite <- !firstn_map. f_equal.
  cbn [map]. f_equal. rewrite map_map.
  apply map_ext. intros x. apply stored_record_rewritten.
Qed.

Lemma history_item_stored (shortest_digits : Q -> string) (r : Result) :
  history_item shortest_digits (stored_record r) = Normal tt.
Proof.
  destruct r as [u s [sc lcp fid cls ttfb fcp inp] d].
  destruct sc as [[| b | q] |]; reflexivity.
Qed.

Lemma renderHistory_stored (shortest_digits : Q -> string) (rs : list Result) :
  renderHistory shortest_digits (Some (Text (JArray (map stored_record rs))))
  = Normal tt.
Proof.
  unfold renderHistory. rewrite getHistory_stored.
  cbn [mbind completion_bind].
  rewrite (mapM_Normal (history_item shortest_digits) (fun _ => tt)); [reflexivity |].
  rewrite Forall_map. apply Forall_forall. intros r _. apply history_item_stored.
Qed.

Lemma recorded_length (e : event) (rs : list Result) :
  (length rs <= 50)%nat -> (length (recorded e rs) <= 50)%nat.
Proof.
  intros H. destruct e as [u s n [m | d] | idx | |]; cbn [recorded]; try exact H.
  - destruct (String.eqb u ""); [exact H |].
    rewrite length_take. unfold MAX_HISTORY. lia.
  - cbn [length]. lia.
Qed.

Lemma renderResults_Normal (shortest_digits : Q -> string)
    (escapeHTML : string -> string) (results : list Result) :
  exists view : ResultsView,
    renderResults shortest_digits escapeHTML results = Normal view.
Proof.
  destruct (cards_from_spec shortest_digits escapeHTML results 0) as (cs & Hcs & _).
  unfold renderResults. rewrite Hcs. eexists. reflexivity.
Qed.

Lemma handle_keeps_store (shortest_digits : Q -> string)
    (escapeHTML : string -> string) (e : event) (app : App) (rs : list Result) :
  getHistory (localStorage app) = Normal (JArray (map stored_record rs)) ->
  (forall err, errorMsg app <> Some (Raised err)) ->
  getHistory (localStorage (handle shortest_digits escapeHTML e app))
  = Normal (JArray (map stored_record (recorded e rs))) /\
  (forall err, errorMsg (handle shortest_digits escapeHTML e app) <> Some (Raised err)).
Proof.
  intros Hst Herr.
  destruct e as [u s n [m | d] | idx | |]; cbn [handle recorded].
  - unfold submit. destruct (String.eqb u "");
      cbn [localStorage errorMsg]; (split; [exact Hst | discriminate]).
  - unfold submit. destruct (String.eqb u "").
    + cbn [localStorage errorMsg]. split; [exact Hst | discriminate].
    + cbv zeta.
      destruct (renderResults_Normal shortest_digits escapeHTML
                  (currentResults app
                   ++ [{| url := u; strategy := s; metrics := extractMetrics d;
                          date := n |}])%list) as [view ->].
      rewrite (saveToHistory_spec _ _ _ Hst), saved_records.
      cbn [localStorage errorMsg]. rewrite renderHistory_stored.
      split; [apply getHistory_stored | discriminate].
  - cbn [localStorage errorMsg]. split; assumption.
  - cbn [localStorage errorMsg]. split; assumption.
  - cbn [localStorage errorMsg]. split; [reflexivity | assumption].
Qed.

(** X10: the history store over a run of the handlers.  From a store
    that holds records the handler wrote (an unset key among them), after
    any run of submissions, removals and clears the store holds exactly
    the records of the resolved submissions with a URL since the history
    was last cleared, most recent first and at most 50 of them; and no
    error raised by the engine is ever put on display (a failed fetch
    shows its message, nothing else shows one). *)
Theorem run_keeps_history (shortest_digits : Q -> string)
    (escapeHTML : string -> string) (events : list event) (app : App)
    (rs : list Result) :
  getHistory (localStorage app) = Normal (JArray (map stored_record rs)) ->
  (forall err, errorMsg app <> Some (Raised err)) ->
  getHistory (localStorage (run shortest_digits escapeHTML events app))
  = Normal (JArray (map stored_record (history_after events rs))) /\
  (forall err,
     errorMsg (run shortest_digits escapeHTML events app) <> Some (Raised err)) /\
  ((length rs <= 50)%nat -> (length (history_after events rs) <= 50)%nat).
Proof.
  revert app rs. induction events as [| e events IH]; intros app rs Hst Herr.
  - split; [exact Hst |]. split; [exact Herr | tauto].
  - destruct (handle_keeps_store shortest_digits escapeHTML e app rs Hst Herr)
      as [Hst' Herr'].
    destruct (IH (handle shortest_digits escapeHTML e app) (recorded e rs) Hst' Herr')
      as (H1 & H2 & H3).
    split; [exact H1 |]. split; [exact H2 |].
    intros Hlen. apply H3, recorded_length, Hlen.
Qed.

(** The page loaded on an unset key, and two submissions, for
    [run_keeps_history]. *)
Lemma run_keeps_history_witness :
  getHistory (localStorage
    (run (fun _ => "") (fun s => s)
         [Submit "a.com" "mobile" "2024-05-01T10:00:00.000Z" (Resolved no_data);
          Submit "b.com" "desktop" "2024-05-01T10:01:00.000Z" (Rejected "quota")]
         (loaded None)))
  = Normal (JArray (map stored_record
      (history_after
         [Submit "a.com" "mobile" "2024-05-01T10:00:00.000Z" (Resolved no_data);
          Submit "b.com" "desktop" "2024-05-01T10:01:00.000Z" (Rejected "quota")]
         []))).
Proof.
  apply (proj1 (run_keeps_history (fun _ => "") (fun s => s) _ (loaded None) [] eq_refl
                  ltac:(intros err; discriminate))).
Defined.

(** X11: a submission on a store that holds JSON which is not a list.
    The result is added to the session list all the same, the store is
    left as it was, and the [TypeError] of [saveToHistory] is what the
    page shows: the two collections part ways. *)
Theorem submit_on_foreign_store (shortest_digits : Q -> string)
    (escapeHTML : string -> string) (url strategy now : string)
    (data : PageSpeed.Response) (app : App) (v : json) :
  url <> "" ->
  localStorage app = Some (Text v) ->
  truthy v = true ->
  (forall l, v <> JArray l) ->
  let app' :=
    submit shortest_digits escapeHTML url strategy now (Resolved data) app in
  currentResults app'
  = (currentResults app
     ++ [{| url := url; strategy := strategy; metrics := extractMetrics data;
            date := now |}])%list /\
  localStorage app' = localStorage app /\
  errorMsg app' = Some (Raised TypeError).
Proof.
  intros Hurl Hst Hv Hl app'. subst app'. unfold submit.
  apply String.eqb_neq in Hurl. rewrite Hurl. cbv zeta.
  destruct (renderResults_Normal shortest_digits escapeHTML
              (currentResults app
               ++ [{| url := url; strategy := strategy; metrics := extractMetrics data;
                      date := now |}])%list) as [view ->].
  assert (Hget : getHistory (localStorage app) = Normal v).
  { rewrite Hst. unfold getHistory. cbn. rewrite Hv. reflexivity. }
  assert (Hsave : forall entry, saveToHistory entry (localStorage app) = Throw TypeError).
  { intros entry. unfold saveToHistory. rewrite Hget. cbn [mbind completion_bind].
    destruct v; try reflexivity. exfalso. eapply Hl. reflexivity. }
  rewrite Hsave. cbn [currentResults localStorage errorMsg].
  repeat split.
Qed.

(** A store that holds the number 42, for [submit_on_foreign_store]. *)
Lemma submit_on_foreign_store_witness :
  errorMsg (submit (fun _ => "") (fun s => s) "a.com" "mobile"
              "2024-05-01T10:00:00.000Z" (Resolved no_data)
              (loaded (Some (Text (JNumber (Fin 42))))))
  = Some (Raised TypeError).
Proof.
  apply (proj2 (proj2 (submit_on_foreign_store (fun _ => "") (fun s => s) "a.com" "mobile"
           "2024-05-01T10:00:00.000Z" no_data
           (loaded (Some (Text (JNumber (Fin 42))))) (JNumber (Fin 42))
           ltac:(discriminate) eq_refl eq_refl ltac:(intros l; discriminate)))).
Defined.

(** ** From the handler to the export *)

Lemma member_stored (r : Result) :
  member (stored_record r) "date" = Normal (Some (JString (date r))) /\
  member (stored_record r) "url" = Normal (Some (JString (url r))) /\
  member (stored_record r) "strategy" = Normal (Some (JString (strategy r))) /\
  member (stored_record r) "score"
  = Normal (Some (rewritten (as_json (score (metrics r))))) /\
  member (stored_record r) "LCP" = Normal (Some (rewritten (as_json (LCP (metrics r))))) /\
  member (stored_record r) "FID" = Normal (Some (rewritten (as_json (FID (metrics r))))) /\
  member (stored_record r) "CLS" = Normal (Some (rewritten (as_json (CLS (metrics r))))) /\
  member (stored_record r) "TTFB"
  = Normal (Some (rewritten (as_json (TTFB (metrics r))))) /\
  member (stored_record r) "FCP" = Normal (Some (rewritten (as_json (FCP (metrics r))))) /\
  member (stored_record r) "INP" = Normal (Some (rewritten (as_json (INP (metrics r))))).
Proof. repeat split. Qed.

Lemma cell_text (shortest_digits : Q -> string) (v : option number) :
  String_ shortest_digits (or_blank (Some (rewritten (as_json v))))
  = Normal (csv_cell shortest_digits v).
Proof. destruct v as [[| b | q] |]; reflexivity. Qed.

Lemma row_stored (shortest_digits : Q -> string)
    (Date_toISOString : option json -> option string) (r : Result)
    (iso : string) :
  Date_toISOString (Some (JString (date r))) = Some iso ->
  row shortest_digits Date_toISOString (stored_record r)
  = Normal [Some (JString iso); Some (JString (url r)); Some (JString (strategy r));
            or_blank (Some (rewritten (as_json (score (metrics r)))));
            or_blank (Some (rewritten (as_json (LCP (metrics r)))));
            or_blank (Some (rewritten (as_json (FID (metrics r)))));
            or_blank (Some (rewritten (as_json (CLS (metrics r)))));
            or_blank (Some (rewritten (as_json (TTFB (metrics r)))));
            or_blank (Some (rewritten (as_json (FCP (metrics r)))));
            or_blank (Some (rewritten (as_json (INP (metrics r)))))].
Proof.
  intros Hiso. unfold row.
  destruct (member_stored r) as (-> & -> & -> & -> & -> & -> & -> & -> & -> & ->).
  cbn [mbind completion_bind]. rewrite Hiso. reflexivity.
Qed.

Lemma Forall2_map_r {A B} (P : A -> B -> Prop) (f : A -> B) (l : list A) :
  Forall (fun x => P x (f x)) l -> Forall2 P l (map f l).
Proof. induction 1; constructor; assumption. Qed.

(** X12: from the handler to the export.  On a store that holds records
    the handler wrote, none of them with a date [toISOString] refuses,
    [exportHistoryCSV] does not raise, and a reader of CSV gets back from
    its text the header row and then, for each record, most recent first,
    its date, URL, strategy and the text of its score and of each metric,
    a field being blank when the value is absent or was not finite. *)
Theorem export_of_handler_store (shortest_digits : Q -> string)
    (Date_toISOString : option json -> option string) (rs : list Result) :
  rs <> [] ->
  Forall (fun r => exists iso, Date_toISOString (Some (JString (date r))) = Some iso) rs ->
  exists (text : string) (rows : list (list string)),
    exportHistoryCSV shortest_digits Date_toISOString
      (Some (Text (JArray (map stored_record rs))))
    = Normal (Some text) /\
    parse_csv text
    = Some (["Date"; "URL"; "Strategy"; "Score"; "LCP"; "FID"; "CLS"; "TTFB"; "FCP"; "INP"]
            :: rows) /\
    Forall2 (fun r fields =>
               exists iso, Date_toISOString (Some (JString (date r))) = Some iso /\
                           fields = csv_fields shortest_digits iso r)
            rs rows.
Proof.
  intros Hne Hall.
  set (iso_of := fun r : Result =>
         match Date_toISOString (Some (JString (date r))) with
         | Some iso => iso
         | None => ""
         end).
  set (cells := fun r : Result =>
         [Some (JString (iso_of r)); Some (JString (url r)); Some (JString (strategy r));
          or_blank (Some (rewritten (as_json (score (metrics r)))));
          or_blank (Some (rewritten (as_json (LCP (metrics r)))));
          or_blank (Some (rewritten (as_json (FID (metrics r)))));
          or_blank (Some (rewritten (as_json (CLS (metrics r)))));
          or_blank (Some (rewritten (as_json (TTFB (metrics r)))));
          or_blank (Some (rewritten (as_json (FCP (metrics r)))));
          or_blank (Some (rewritten (as_json (INP (metrics r)))))]).
  assert (Hrows : mapM (row shortest_digits Date_toISOString) (map stored_record rs)
                  = Normal (map cells rs)).
  { assert (H : forall l : list Result,
              Forall (fun r => exists iso,
                        Date_toISOString (Some (JString (date r))) = Some iso) l ->
              mapM (row shortest_digits Date_toISOString) (map stored_record l) = Normal (map cells l)).
    { induction 1 as [| r l [iso Hiso] _ IH]; [reflexivity |].
      cbn [map mapM]. rewrite (row_stored shortest_digits _ r iso Hiso).
      cbn [mbind completion_bind]. rewrite IH.
      cbn [mbind completion_bind mret completion_ret].
      unfold cells at 2, iso_of. rewrite Hiso. reflexivity. }
    apply H, Hall. }
  assert (Htexts : mapM (mapM (String_ shortest_digits)) (headers :: map cells rs)
                   = Normal (header_names
                             :: map (fun r => csv_fields shortest_digits (iso_of r) r) rs)).
  { cbn [mapM]. rewrite headers_text. cbn [mbind completion_bind].
    rewrite mapM_map.
    rewrite (mapM_Normal _ (fun r => csv_fields shortest_digits (iso_of r) r));
      [reflexivity |].
    apply Forall_forall. intros r _. unfold cells, csv_fields.
    cbn [mapM String_ String_of mbind completion_bind mret completion_ret].
    rewrite !cell_text. reflexivity. }
  exists (csv_text (header_names
                    :: map (fun r => csv_fields shortest_digits (iso_of r) r) rs)).
  exists (map (fun r => csv_fields shortest_digits (iso_of r) r) rs).
  split.
  { unfold exportHistoryCSV. rewrite getHistory_stored.
    cbn [mbind completion_bind].
    destruct rs as [| r rs']; [congruence |].
    change (map stored_record (r :: rs'))
      with (stored_record r :: map stored_record rs') in *.
    cbv iota. rewrite Hrows. cbn [mbind completion_bind].
    rewrite (csv_of_text _ _ _ Htexts). reflexivity. }
  split.
  { apply parse_csv_text; [discriminate |].
    apply Forall_forall. intros fields Hin. apply list_elem_of_In in Hin.
    destruct Hin as [<- | Hin]; [discriminate |].
    apply in_map_iff in Hin as (r & <- & _). discriminate. }
  apply Forall2_map_r.
  eapply Forall_impl; [exact Hall |].
  intros r [iso Hiso]. cbv beta. exists iso. split; [exact Hiso |].
  unfold iso_of. rewrite Hiso. reflexivity.
Qed.

(** A store of one record the handler wrote, for
    [export_of_handler_store]; the date is read as the ISO text it is
    stored as. *)
Lemma export_of_handler_store_witness :
  exists (text : string) (rows : list (list string)),
    exportHistoryCSV (fun _ => "")
      (fun v => match v with Some (JString s) => Some s | _ => None end)
      (Some (Text (JArray (map stored_record
         [{| url := "a.com"; strategy := "mobile"; metrics := extractMetrics no_data;
             date := "2024-05-01T10:00:00.000Z" |}]))))
    = Normal (Some text) /\
    parse_csv text
    = Some (["Date"; "URL"; "Strategy"; "Score"; "LCP"; "FID"; "CLS"; "TTFB"; "FCP"; "INP"]
            :: rows) /\
    Forall2 (fun r fields =>
               exists iso,
                 match Some (JString (date r)) with
                 | Some (JString s) => Some s
                 | _ => None
                 end = Some iso /\
                 fields = csv_fields (fun _ => "") iso r)
            [{| url := "a.com"; strategy := "mobile"; metrics := extractMetrics no_data;
                date := "2024-05-01T10:00:00.000Z" |}]
            rows.
Proof.
  apply (export_of_handler_store (fun _ => "")
           (fun v => match v with Some (JString s) => Some s | _ => None end)).
  - discriminate.
  - constructor; [| constructor]. eexists. reflexivity.
Defined.
